(** * Rule aggregation and optimisation scripts (Shinlor/ForPersonalUse)

    A shallow embedding of the four scripts under [Script/]:
    - [domain_merge_optimizer.py]  (module [DomainMergeOptimizer]),
    - [list_to_json/list_to_json.py]  (module [ListToJson]),
    - [list_to_json_converter.py]  (module [ListToJsonConverter]),
    - [list_to_yaml_converter.py]  (module [ListToYaml]),
    followed by the properties of the rule engine they implement.

    Text is a [string] of 8-bit characters.  The character classes of
    Python ([str.strip], [str.upper], [str.lower]) are modelled on the ASCII
    range, the alphabet of rule lists; a character above 127 is kept as it
    is by the case maps and is never white space. *)

From Stdlib Require Import Ascii String.
From stdpp Require Import gmap strings list sorting.

(** ** Python's [str] methods used by the scripts *)
Module Py.

(** [len(s)] *)
Definition len (s : string) : nat := String.length s.

(** The truth value of a string: [if s:] holds when [s] is not empty. *)
Definition truthy (s : string) : bool :=
  match s with
  | EmptyString => false
  | String _ _ => true
  end.

(** The line feed, written ['\n'] in the scripts. *)
Definition LF : ascii := ascii_of_nat 10.
Definition newline : string := String LF EmptyString.

(** [c.isspace()] on ASCII: TAB, LF, VT, FF, CR, FS, GS, RS, US, SPACE. *)
Definition isspace (c : ascii) : bool :=
  let n := nat_of_ascii c in
  ((9 <=? n) && (n <=? 13)) || ((28 <=? n) && (n <=? 32)).

Fixpoint lstrip (s : string) : string :=
  match s with
  | EmptyString => EmptyString
  | String c s' => if isspace c then lstrip s' else s
  end.

Fixpoint rstrip (s : string) : string :=
  match s with
  | EmptyString => EmptyString
  | String c s' =>
      match rstrip s' with
      | EmptyString => if isspace c then EmptyString else String c EmptyString
      | r => String c r
      end
  end.

(** [s.strip()] *)
Definition strip (s : string) : string := rstrip (lstrip s).

(** [s[n:]] *)
Fixpoint drop (n : nat) (s : string) : string :=
  match n, s with
  | O, _ => s
  | S _, EmptyString => EmptyString
  | S n', String _ s' => drop n' s'
  end.

(** [s[:n]] *)
Fixpoint take (n : nat) (s : string) : string :=
  match n, s with
  | O, _ => EmptyString
  | S _, EmptyString => EmptyString
  | S n', String c s' => String c (take n' s')
  end.

(** [s.startswith(p)]: the first [len(p)] characters of [s] are [p]. *)
Definition startswith (s p : string) : bool :=
  (len p <=? len s) && String.eqb (take (len p) s) p.

(** [s.endswith(p)]: the last [len(p)] characters of [s] are [p]. *)
Definition endswith (s p : string) : bool :=
  (len p <=? len s) && String.eqb (drop (len s - len p) s) p.

(** [needle in s] *)
Fixpoint contains (s needle : string) : bool :=
  startswith s needle ||
  match s with
  | EmptyString => false
  | String _ s' => contains s' needle
  end.

(** Prepend a character to the first field of a split. *)
Definition cons_field (c : ascii) (fields : list string) : list string :=
  match fields with
  | [] => [String c EmptyString]
  | w :: ws => String c w :: ws
  end.

(** [s.split(sep)] for a one-character separator: every occurrence of
    [sep] ends a field, so the result has one field more than [s] has
    separators. *)
Fixpoint split (sep : ascii) (s : string) : list string :=
  match s with
  | EmptyString => [EmptyString]
  | String c s' =>
      if Ascii.eqb c sep then EmptyString :: split sep s'
      else cons_field c (split sep s')
  end.

(** [s.split(sep, maxsplit)]: at most [maxsplit] splits, from the left. *)
Fixpoint split_max (sep : ascii) (maxsplit : nat) (s : string) {struct s}
  : list string :=
  match maxsplit with
  | O => [s]
  | S m =>
      match s with
      | EmptyString => [EmptyString]
      | String c s' =>
          if Ascii.eqb c sep then EmptyString :: split_max sep m s'
          else cons_field c (split_max sep maxsplit s')
      end
  end.

Definition upper_char (c : ascii) : ascii :=
  let n := nat_of_ascii c in
  if (97 <=? n) && (n <=? 122) then ascii_of_nat (n - 32) else c.

Definition lower_char (c : ascii) : ascii :=
  let n := nat_of_ascii c in
  if (65 <=? n) && (n <=? 90) then ascii_of_nat (n + 32) else c.

Fixpoint map_chars (f : ascii -> ascii) (s : string) : string :=
  match s with
  | EmptyString => EmptyString
  | String c s' => String (f c) (map_chars f s')
  end.

(** [s.upper()] and [s.lower()] *)
Definition upper : string -> string := map_chars upper_char.
Definition lower : string -> string := map_chars lower_char.

(** Exceptions a script can meet on the modelled paths. *)
Inductive exn : Type :=
| IndexError
| ValueError
| DanglingReference.

(** The outcome of an expression: a value or a raised exception. *)
Inductive outcome (A : Type) : Type :=
| Return (a : A)
| Raise (e : exn).
Arguments Return {A} a.
Arguments Raise {A} e.

(** [xs[i]] *)
Definition index {A : Type} (xs : list A) (i : nat) : outcome A :=
  match xs !! i with
  | Some x => Return x
  | None => Raise IndexError
  end.

(** Sequencing: an exception ends the computation. *)
Definition and_then {A B : Type} (o : outcome A) (k : A -> outcome B)
  : outcome B :=
  match o with
  | Return a => k a
  | Raise e => Raise e
  end.

Declare Scope outcome_scope.
Delimit Scope outcome_scope with outcome.
Notation "'val' x <- o ;; k" := (and_then o (fun x => k))
  (at level 10, x name, o at level 99, k at level 200, only parsing)
  : outcome_scope.

(** The outcome seen through [f]. *)
Definition map_outcome {A B : Type} (f : A -> B) (o : outcome A) : outcome B :=
  and_then o (fun a => Return (f a)).

(** [for x in xs: st = body(st, x)], with no handler around it. *)
Fixpoint for_state {A S : Type} (xs : list A) (st : S)
    (body : S -> A -> outcome S) : outcome S :=
  match xs with
  | [] => Return st
  | x :: xs' => and_then (body st x) (fun st' => for_state xs' st' body)
  end.

(** [int(s)] for a text in base ten: white space around, a sign, then
    digits, where one underscore may stand between two digits. *)
Definition digit (c : ascii) : option Z :=
  let n := nat_of_ascii c in
  if (48 <=? n) && (n <=? 57) then Some (Z.of_nat (n - 48)) else None.

Fixpoint int_digits (s : string) (acc : Z) (after_digit : bool) : option Z :=
  match s with
  | EmptyString => if after_digit then Some acc else None
  | String c s' =>
      match digit c with
      | Some d => int_digits s' (10 * acc + d)%Z true
      | None =>
          if Ascii.eqb c "_"%char && after_digit then int_digits s' acc false
          else None
      end
  end.

Definition int (s : string) : outcome Z :=
  let parsed :=
    match strip s with
    | String "+"%char s' => int_digits s' 0%Z false
    | String "-"%char s' => Z.opp <$> int_digits s' 0%Z false
    | s' => int_digits s' 0%Z false
    end in
  match parsed with
  | Some n => Return n
  | None => Raise ValueError
  end.

(** [sorted(xs, key=key)]: a stable sort that compares keys with [<].
    Stability fixes the result, so insertion from the right computes the
    list Python's merge sort computes. *)
Fixpoint insert_by_key (key : string -> string) (x : string) (l : list string)
  : list string :=
  match l with
  | [] => [x]
  | y :: l' =>
      if String.ltb (key y) (key x) then y :: insert_by_key key x l'
      else x :: l
  end.

Definition sorted (key : string -> string) (l : list string) : list string :=
  foldr (insert_by_key key) [] l.

End Py.

(** ** domain_merge_optimizer.py *)
Module DomainMergeOptimizer.
Import Py.

(** *** Set objects

    The script builds its collections as Python [set] objects, which are
    shared by reference and updated in place.  A heap maps a reference to
    the current value of the set it names; a computation threads the heap
    and may raise. *)
Abbreviation ref := positive.
Abbreviation heap := (gmap positive (gset string)).

Definition M (A : Type) : Type := heap -> outcome A * heap.

Definition ret {A : Type} (a : A) : M A := fun h => (Return a, h).

Definition bind {A B : Type} (m : M A) (k : A -> M B) : M B :=
  fun h =>
    match m h with
    | (Return a, h') => k a h'
    | (Raise e, h') => (Raise e, h')
    end.

Definition lift {A : Type} (o : outcome A) : M A := fun h => (o, h).

Declare Scope py_scope.
Delimit Scope py_scope with py.
Notation "'do' x <- m ;; k" := (bind m (fun x => k))
  (at level 10, x name, m at level 99, k at level 200, only parsing)
  : py_scope.
Notation "'do' ' p <- m ;; k" := (bind m (fun p => k))
  (at level 10, p pattern, m at level 99, k at level 200, only parsing)
  : py_scope.
Notation "m ;; k" := (bind m (fun _ => k))
  (at level 100, k at level 200, right associativity, only parsing) : py_scope.
Local Open Scope py_scope.

(** [set()] *)
Definition new_set : M ref :=
  fun h => let r := fresh (dom h) in (Return r, <[r := ∅]> h).

(** The current value of the set at [r]. *)
Definition read (r : ref) : M (gset string) :=
  fun h =>
    match h !! r with
    | Some X => (Return X, h)
    | None => (Raise DanglingReference, h)
    end.

(** [r.add(x)] *)
Definition add (r : ref) (x : string) : M unit :=
  fun h =>
    match h !! r with
    | Some X => (Return tt, <[r := X ∪ {[x]}]> h)
    | None => (Raise DanglingReference, h)
    end.

(** [r.update(t)] *)
Definition update (r t : ref) : M unit :=
  do T <- read t ;;
  fun h =>
    match h !! r with
    | Some X => (Return tt, <[r := X ∪ T]> h)
    | None => (Raise DanglingReference, h)
    end.

(** The elements [for x in r] runs through.  Python leaves the order of a
    set open; [elements] fixes one, and no result below depends on it. *)
Definition iterate (r : ref) : M (list string) :=
  do X <- read r ;; ret (elements X).

(** [try: m  except Exception: handler] *)
Definition try_except {A : Type} (m : M A) (handler : exn -> M A) : M A :=
  fun h =>
    match m h with
    | (Return a, h') => (Return a, h')
    | (Raise e, h') => handler e h'
    end.

(** [for x in xs: body(x)] *)
Fixpoint for_each {A : Type} (xs : list A) (body : A -> M unit) : M unit :=
  match xs with
  | [] => ret tt
  | x :: xs' => body x ;; for_each xs' body
  end.

(** A [for] loop that carries a local variable. *)
Fixpoint for_fold {A S : Type} (xs : list A) (s : S) (body : S -> A -> M S)
  : M S :=
  match xs with
  | [] => ret s
  | x :: xs' => do s' <- body s x ;; for_fold xs' s' body
  end.

(** A text file that could be opened: the lines its iterator yields, each
    with its line end. *)
Definition file : Type := list string.

(** *** parse_list_file *)

(** One turn of the loop over the lines. *)
Definition parse_line (domains domain_suffixes : ref) (line : string)
  : M unit :=
  let line := strip line in
  if negb (truthy line) || startswith line "#" then ret tt
  else if startswith line "DOMAIN," then
    do rest <- lift (index (split_max ","%char 1 line) 1) ;;
    let domain := strip rest in
    if truthy domain then add domains domain else ret tt
  else if startswith line "DOMAIN-SUFFIX," then
    do rest <- lift (index (split_max ","%char 1 line) 1) ;;
    let suffix := strip rest in
    if truthy suffix then add domain_suffixes suffix else ret tt
  else ret tt.

Definition parse_list_file (f : file) : M (ref * ref) :=
  do domains <- new_set ;;
  do domain_suffixes <- new_set ;;
  try_except (for_each f (parse_line domains domain_suffixes))
             (fun _ => ret tt) ;;
  ret (domains, domain_suffixes).

(** *** is_subdomain_of *)
Definition is_subdomain_of (domain suffix : string) : bool :=
  if String.eqb domain suffix then false
  else if endswith domain ("." +:+ suffix) then true
  else false.

(** *** optimize_domains *)

(** The inner loop [for suffix in domain_suffixes], left by [break] at the
    first suffix that covers [domain]. *)
Fixpoint covered_loop (domain : string) (suffixes : list string)
    (is_covered : bool) (removed_count : nat) : bool * nat :=
  match suffixes with
  | [] => (is_covered, removed_count)
  | suffix :: rest =>
      if is_subdomain_of domain suffix then (true, removed_count + 1)
      else covered_loop domain rest is_covered removed_count
  end.

(** One turn of the outer loop [for domain in all_domains]. *)
Definition optimize_body (optimized domain_suffixes : ref)
    (removed_count : nat) (domain : string) : M nat :=
  do suffixes <- iterate domain_suffixes ;;
  let '(is_covered, removed_count) :=
    covered_loop domain suffixes false removed_count in
  if negb is_covered then add optimized domain ;; ret removed_count
  else ret removed_count.

(** Returns the new set and the count the function reports. *)
Definition optimize_domains (all_domains domain_suffixes : ref)
  : M (ref * nat) :=
  do optimized <- new_set ;;
  do domains <- iterate all_domains ;;
  do removed_count <-
    for_fold domains 0 (optimize_body optimized domain_suffixes) ;;
  ret (optimized, removed_count).

(** *** load_existing_domains

    [None] is a path that does not exist. *)
Definition load_line (domains : ref) (line : string) : M unit :=
  let line := strip line in
  if truthy line && negb (startswith line "#") then add domains line
  else ret tt.

Definition load_existing_domains (f : option file) : M ref :=
  do domains <- new_set ;;
  match f with
  | None => ret domains
  | Some lines =>
      try_except (for_each lines (load_line domains)) (fun _ => ret tt) ;;
      ret domains
  end.

(** *** save_domains

    The text written to the output file, from the order [it] in which the
    set is run through. *)
Definition write_lines (sorted_domains : list string) : string :=
  fold_left (fun buf domain => buf +:+ (domain +:+ newline))
            sorted_domains EmptyString.

Definition save_domains_text (it : list string) : string :=
  let sorted_domains := sorted lower it in
  write_lines sorted_domains.

Definition save_domains (domains : ref) : M string :=
  do it <- iterate domains ;; ret (save_domains_text it).

(** *** main, from step 3 on *)

(** Step 3: parse every loaded file into the two running sets.  (The
    script stops before this step when no file could be loaded.) *)
Definition main_parse (loaded_files : list file) : M (ref * ref) :=
  do all_domains <- new_set ;;
  do all_suffixes <- new_set ;;
  for_each loaded_files (fun filepath =>
    do ' (domains, suffixes) <- parse_list_file filepath ;;
    update all_domains domains ;;
    update all_suffixes suffixes) ;;
  ret (all_domains, all_suffixes).

(** Steps 4 and 5: load the existing list and merge. *)
Definition main_merge (all_domains all_suffixes : ref)
    (sample_file : option file) : M ref :=
  do existing_domains <- load_existing_domains sample_file ;;
  update all_domains existing_domains ;;
  update all_domains all_suffixes ;;
  ret existing_domains.

(** The script's variables after step 6. *)
Record env : Type := Env {
  all_domains : ref;
  all_suffixes : ref;
  existing_domains : ref;
  optimized_domains : ref
}.

Definition main_optimize (loaded_files : list file)
    (sample_file : option file) : M env :=
  do ' (all_domains, all_suffixes) <- main_parse loaded_files ;;
  do existing_domains <- main_merge all_domains all_suffixes sample_file ;;
  do ' (optimized_domains, _) <- optimize_domains all_domains all_suffixes ;;
  ret (Env all_domains all_suffixes existing_domains optimized_domains).

(** Steps 3 to 7: the text saved to the output file. *)
Definition main (loaded_files : list file) (sample_file : option file)
  : M string :=
  do e <- main_optimize loaded_files sample_file ;;
  save_domains (optimized_domains e).

(** The value a computation leaves in the set it returns, from the empty
    heap. *)
Definition value_at {A : Type} (m : M A) (sel : A -> ref)
  : option (gset string) :=
  match m ∅ with
  | (Return a, h) => h !! sel a
  | (Raise _, _) => None
  end.

End DomainMergeOptimizer.

(** ** The JSON rule document the converters write and read back *)
Module Json.

(** A rule object such as [{"domain": [...]}]: a dictionary from a rule
    kind to its values. *)
Abbreviation rule := (gmap string (list string)).

(** [{"rules": [...], "version": n}] *)
Record document : Type := Document {
  rules : list rule;
  version : Z
}.

End Json.

(** ** list_to_json/list_to_json.py *)
Module ListToJson.
Import Py.
Local Open Scope outcome_scope.

(** What the loop of [list_to_json] updates: the three lists of [result]
    and the four counters of [stats]. *)
Record state : Type := State {
  domain : list string;
  domain_keyword : list string;
  domain_suffix : list string;
  stats_domain : nat;
  stats_domain_keyword : nat;
  stats_domain_suffix : nat;
  stats_ignored : nat
}.

Definition initial : state := State [] [] [] 0 0 0 0.

(** One turn of the loop over the lines. *)
Definition convert_line (st : state) (line : string) : outcome state :=
  let line := strip line in
  if negb (truthy line) then Return st
  else
    let parts := split ","%char line in
    if length parts <? 2 then Return st
    else
      val part0 <- index parts 0 ;;
      let rule_type := upper part0 in
      val value <- index parts 1 ;;
      if String.eqb rule_type "DOMAIN" then
        Return (State (domain st ++ [value]) (domain_keyword st)
                  (domain_suffix st) (stats_domain st + 1)
                  (stats_domain_keyword st) (stats_domain_suffix st)
                  (stats_ignored st))
      else if String.eqb rule_type "DOMAIN-KEYWORD" then
        Return (State (domain st) (domain_keyword st ++ [value])
                  (domain_suffix st) (stats_domain st)
                  (stats_domain_keyword st + 1) (stats_domain_suffix st)
                  (stats_ignored st))
      else if String.eqb rule_type "DOMAIN-SUFFIX" then
        Return (State (domain st) (domain_keyword st)
                  (domain_suffix st ++ [value]) (stats_domain st)
                  (stats_domain_keyword st) (stats_domain_suffix st + 1)
                  (stats_ignored st))
      else
        Return (State (domain st) (domain_keyword st) (domain_suffix st)
                  (stats_domain st) (stats_domain_keyword st)
                  (stats_domain_suffix st) (stats_ignored st + 1)).

Definition convert_lines (lines : list string) : outcome state :=
  for_state lines initial convert_line.

(** The dictionary [result] once the loop is over. *)
Definition result (st : state) (version : Z) : Json.document :=
  Json.Document
    [ {[ "domain" := domain st ]};
      {[ "domain_keyword" := domain_keyword st ]};
      {[ "domain_suffix" := domain_suffix st ]} ]
    version.

(** [list_to_json], from the lines [readlines()] gives ([None]: the file is
    not found).  [Some doc] is the document written when the function
    returns [True], [None] stands for [False]. *)
Definition list_to_json (lines : option (list string)) (version : Z)
  : outcome (option Json.document) :=
  match lines with
  | None => Return None
  | Some lines =>
      val st <- convert_lines lines ;;
      Return (Some (result st version))
  end.

End ListToJson.

(** ** list_to_json_converter.py *)
Module ListToJsonConverter.
Import Py.
Local Open Scope outcome_scope.

Definition valid_types : list string :=
  ["DOMAIN"; "DOMAIN-KEYWORD"; "DOMAIN-SUFFIX"; "IP-CIDR"; "IP-CIDR6";
   "USER-AGENT"; "PROCESS-NAME"].

(** One turn of the counting loop of [check_list_file]. *)
Definition check_line (valid_count : nat) (line : string) : outcome nat :=
  let line := strip line in
  if negb (truthy line) || startswith line "#" then Return valid_count
  else
    let parts := split ","%char line in
    if 2 <=? length parts then
      val part0 <- index parts 0 ;;
      if bool_decide (upper part0 ∈ valid_types)
      then Return (valid_count + 1)
      else Return valid_count
    else Return valid_count.

(** [check_list_file]: the value returned, with the count of valid rules it
    prints.  Any exception is caught and gives [False]. *)
Definition check_list_file (lines : list string) : bool * nat :=
  match lines with
  | [] => (false, 0)
  | _ =>
      match for_state lines 0 check_line with
      | Return valid_count => (true, valid_count)
      | Raise _ => (false, 0)
      end
  end.

(** The dictionary [rules_data]. *)
Record rules_data : Type := RulesData {
  domain : list string;
  domain_keyword : list string;
  domain_suffix : list string;
  ip_cidr : list string
}.

Definition no_rules : rules_data := RulesData [] [] [] [].

(** One turn of the loop of [parse_list_file]. *)
Definition parse_line (rd : rules_data) (line : string) : outcome rules_data :=
  let line := strip line in
  if negb (truthy line) || startswith line "#" then Return rd
  else if startswith line "DOMAIN," then
    val domain_ <- index (split_max ","%char 1 line) 1 ;;
    Return (RulesData (domain rd ++ [domain_]) (domain_keyword rd)
              (domain_suffix rd) (ip_cidr rd))
  else if startswith line "DOMAIN-KEYWORD," then
    val keyword <- index (split_max ","%char 1 line) 1 ;;
    Return (RulesData (domain rd) (domain_keyword rd ++ [keyword])
              (domain_suffix rd) (ip_cidr rd))
  else if startswith line "DOMAIN-SUFFIX," then
    val suffix <- index (split_max ","%char 1 line) 1 ;;
    Return (RulesData (domain rd) (domain_keyword rd)
              (domain_suffix rd ++ [suffix]) (ip_cidr rd))
  else if startswith line "IP-CIDR," || startswith line "IP-CIDR6," then
    let parts := split ","%char line in
    val ip_cidr_ <- index parts 1 ;;
    Return (RulesData (domain rd) (domain_keyword rd) (domain_suffix rd)
              (ip_cidr rd ++ [ip_cidr_]))
  else Return rd.

(** [final_rules]: one rule object for each kind that has a value. *)
Definition final_rules (rd : rules_data) : list Json.rule :=
  (if bool_decide (domain rd = []) then []
   else [ {[ "domain" := domain rd ]} ]) ++
  (if bool_decide (domain_keyword rd = []) then []
   else [ {[ "domain_keyword" := domain_keyword rd ]} ]) ++
  (if bool_decide (domain_suffix rd = []) then []
   else [ {[ "domain_suffix" := domain_suffix rd ]} ]) ++
  (if bool_decide (ip_cidr rd = []) then []
   else [ {[ "ip_cidr" := ip_cidr rd ]} ]).

Definition parse_list_file (lines : list string) : outcome Json.document :=
  val rd <- for_state lines no_rules parse_line ;;
  Return (Json.Document (final_rules rd) 2).

(** [xs.extend(rule[key])] when [key in rule]. *)
Definition extend_from (rule : Json.rule) (key : string) (xs : list string)
  : list string :=
  match rule !! key with
  | Some values => xs ++ values
  | None => xs
  end.

(** One turn of the loop over [data["rules"]]. *)
Definition merge_rule (md : rules_data) (rule : Json.rule) : rules_data :=
  RulesData (extend_from rule "domain" (domain md))
            (extend_from rule "domain_keyword" (domain_keyword md))
            (extend_from rule "domain_suffix" (domain_suffix md))
            (extend_from rule "ip_cidr" (ip_cidr md)).

(** One turn of the loop over [json_files]; [None] is a file that cannot be
    loaded, which is passed over with a warning.  A loaded document has the
    key ["rules"], as every document the converters write. *)
Definition merge_file (md : rules_data) (json_file : option Json.document)
  : rules_data :=
  match json_file with
  | Some data => fold_left merge_rule (Json.rules data) md
  | None => md
  end.

(** [list(set(xs))], in the order [elements] gives to the set. *)
Definition list_set (xs : list string) : list string :=
  elements (list_to_set xs : gset string).

Definition dedup (md : rules_data) : rules_data :=
  RulesData (list_set (domain md)) (list_set (domain_keyword md))
            (list_set (domain_suffix md)) (list_set (ip_cidr md)).

(** [merged_data] when the document is written. *)
Definition merged_data (json_files : list (option Json.document))
  : rules_data :=
  dedup (fold_left merge_file json_files no_rules).


End ListToJsonConverter.

(** ** list_to_yaml_converter.py *)
Module ListToYaml.
Import Py.
Local Open Scope outcome_scope.

Definition SUPPORTED_RULE_TYPES : gset string :=
  {[ "DOMAIN-SUFFIX"; "DOMAIN-KEYWORD"; "IP-CIDR"; "IP-CIDR6"; "DOMAIN";
     "DOMAIN-SET"; "GEOIP"; "IP-ASN" ]}.

Definition UNSUPPORTED_RULE_TYPES : gset string :=
  {[ "USER-AGENT"; "URL-REGEX"; "PROCESS-NAME" ]}.

(** A value of the [metadata] dictionary: a text or a count. *)
Inductive meta_value : Type :=
| MStr (s : string)
| MInt (n : Z).

(** The variables of [parse_list_file]; [warnings] holds what the function
    prints for a rule kind it does not know (line number, kind, line). *)
Record state : Type := State {
  metadata : gmap string meta_value;
  rules : list string;
  stats : gmap string nat;
  skipped_rules : list (nat * string * string);
  warnings : list (nat * string * string)
}.

Definition initial : state :=
  State (list_to_map
           [ ("NAME", MStr EmptyString); ("AUTHOR", MStr EmptyString);
             ("REPO", MStr EmptyString); ("UPDATED", MStr EmptyString);
             ("DOMAIN-KEYWORD", MInt 0);
             ("DOMAIN-SUFFIX", MInt 0); ("IP-CIDR", MInt 0);
             ("IP-CIDR6", MInt 0); ("TOTAL", MInt 0) ])
        [] ∅ [] [].

(** [if f'# {key}:' in line: metadata[key] = line.split(':', 1)[1].strip()] *)
Definition set_text_key (line : string) (md : gmap string meta_value)
    (key : string) : outcome (gmap string meta_value) :=
  if contains line ("# " +:+ key +:+ ":") then
    val rest <- index (split_max ":"%char 1 line) 1 ;;
    Return (<[key := MStr (strip rest)]> md)
  else Return md.

(** The same for a count, where a failing [int] is passed over. *)
Definition set_count_key (line : string) (md : gmap string meta_value)
    (key : string) : outcome (gmap string meta_value) :=
  if contains line ("# " +:+ key +:+ ":") then
    match (val rest <- index (split_max ":"%char 1 line) 1 ;;
           int (strip rest)) with
    | Return n => Return (<[key := MInt n]> md)
    | Raise _ => Return md
    end
  else Return md.

(** One turn of the loop over the numbered lines. *)
Definition parse_line (st : state) (numbered : nat * string) : outcome state :=
  let '(line_num, line) := numbered in
  let line := strip line in
  if startswith line "#" then
    val md <- for_state ["NAME"; "AUTHOR"; "REPO"; "UPDATED"] (metadata st)
                (set_text_key line) ;;
    val md <- for_state
                ["DOMAIN-KEYWORD"; "DOMAIN-SUFFIX"; "IP-CIDR"; "IP-CIDR6";
                 "TOTAL"] md (set_count_key line) ;;
    Return (State md (rules st) (stats st) (skipped_rules st) (warnings st))
  else if negb (truthy line) then Return st
  else
    let parts := split ","%char line in
    if length parts <? 2 then Return st
    else
      val part0 <- index parts 0 ;;
      let rule_type := strip part0 in
      val part1 <- index parts 1 ;;
      let rule_value := strip part1 in
      if bool_decide (rule_type ∈ UNSUPPORTED_RULE_TYPES) then
        Return (State (metadata st) (rules st) (stats st)
                  (skipped_rules st ++ [(line_num, rule_type, rule_value)])
                  (warnings st))
      else if negb (bool_decide (rule_type ∈ SUPPORTED_RULE_TYPES)) then
        Return (State (metadata st) (rules st) (stats st) (skipped_rules st)
                  (warnings st ++ [(line_num, rule_type, line)]))
      else
        let final_rule :=
          if bool_decide (rule_type ∈ ["IP-CIDR"; "IP-CIDR6"])
          then rule_type +:+ "," +:+ rule_value
          else rule_type +:+ "," +:+ rule_value in
        Return (State (metadata st) (rules st ++ [final_rule])
                  (<[rule_type := default 0 (stats st !! rule_type) + 1]>
                     (stats st))
                  (skipped_rules st) (warnings st)).

(** [enumerate(lines, start)] *)
Fixpoint enumerate (start : nat) (lines : list string) : list (nat * string) :=
  match lines with
  | [] => []
  | line :: rest => (start, line) :: enumerate (S start) rest
  end.

(** The loop of [parse_list_file] over [lines]. *)
Definition parse_lines (lines : list string) : outcome state :=
  for_state (enumerate 1 lines) initial parse_line.

(** [parse_list_file(content, filename)]: the dictionary returned is made
    of the fields [metadata], [rules] and [stats] of the final state. *)
Definition parse_list_file (content : string) : outcome state :=
  let lines := split LF (strip content) in
  parse_lines lines.

End ListToYaml.

(** ** Notions the properties are stated with *)
Module Spec.
Import DomainMergeOptimizer.

(** [d] is a strict child of [s]: some text, a dot, then [s]. *)
Definition child_of (d s : string) : Prop :=
  exists p, d = p +:+ "." +:+ s.

(** Some suffix of [S] covers [d]. *)
Definition covered_by (S : gset string) (d : string) : Prop :=
  set_Exists (fun s => is_subdomain_of d s = true) S.

#[export] Instance covered_by_dec (S : gset string) (d : string) :
  Decision (covered_by S d).
Proof. unfold covered_by. apply _. Defined.

(** [optimize(D, S)]: the domains of [D] that no suffix of [S] covers. *)
Definition optimize (D S : gset string) : gset string :=
  filter (fun d => ~ covered_by S d) D.

(** The rule a line of a rule list declares to [domain_merge_optimizer]:
    the trimmed text after the type token, when it is not empty. *)
Definition declared (token : string) (line : string) : option string :=
  let line := Py.strip line in
  if Py.startswith line (token +:+ ",") then
    let value := Py.strip (Py.drop (Py.len token + 1) line) in
    if Py.truthy value then Some value else None
  else None.

Definition declared_domain : string -> option string := declared "DOMAIN".
Definition declared_suffix : string -> option string :=
  declared "DOMAIN-SUFFIX".

(** The two partitions of a parsed file. *)
Definition domains_of (f : file) : gset string :=
  list_to_set (omap declared_domain f).
Definition suffixes_of (f : file) : gset string :=
  list_to_set (omap declared_suffix f).

(** The entry a line of the existing list stands for. *)
Definition listed (line : string) : option string :=
  let line := Py.strip line in
  if Py.truthy line && negb (Py.startswith line "#") then Some line else None.

Definition existing_of (f : option file) : gset string :=
  match f with
  | None => ∅
  | Some lines => list_to_set (omap listed lines)
  end.

(** The set holding the rule of an optional declaration. *)
Definition rule_set (o : option string) : gset string :=
  list_to_set (option_list o).


(** The flat text of a list of values: each value on a line of its own,
    ended by a line feed, and nothing else. *)
Definition flat_text (values : list string) : string :=
  foldr (fun value text => value +:+ Py.newline +:+ text) EmptyString values.

(** The character [c] occurs in [s]. *)
Fixpoint mentions (c : ascii) (s : string) : bool :=
  match s with
  | EmptyString => false
  | String x s' => Ascii.eqb x c || mentions c s'
  end.

(** From heap [h], [m] ends normally and leaves the two collections [D]
    and [S] in the sets it returns. *)
Definition leaves (m : M (ref * ref)) (h : gmap positive (gset string))
    (D S : gset string) : Prop :=
  exists (d s : positive) (h' : gmap positive (gset string)),
    m h = (Py.Return (d, s), h') /\ h' !! d = Some D /\ h' !! s = Some S.


(** No list of a merged rule set holds a value twice. *)
Definition duplicate_free (a : ListToJsonConverter.rules_data) : Prop :=
  NoDup (ListToJsonConverter.domain a) /\
  NoDup (ListToJsonConverter.domain_keyword a) /\
  NoDup (ListToJsonConverter.domain_suffix a) /\
  NoDup (ListToJsonConverter.ip_cidr a).

(** The rule a line gives to [list_to_yaml_converter]: its kind and its
    value, when the line is no comment, has two fields or more, and its
    kind is supported. *)
Definition yaml_rule (line : string) : option (string * string) :=
  let line := Py.strip line in
  if Py.startswith line "#" || negb (Py.truthy line) then None
  else
    match Py.split ","%char line with
    | part0 :: part1 :: _ =>
        let rule_type := Py.strip part0 in
        if bool_decide (rule_type ∈ ListToYaml.UNSUPPORTED_RULE_TYPES)
        then None
        else if bool_decide (rule_type ∈ ListToYaml.SUPPORTED_RULE_TYPES)
        then Some (rule_type, Py.strip part1)
        else None
    | _ => None
    end.

(** The payload lines and the counts by kind of a list of lines. *)
Definition yaml_rules_of (lines : list string) : list string :=
  (fun r : string * string => r.1 +:+ "," +:+ r.2) <$> omap yaml_rule lines.

Definition yaml_stats_of (lines : list string) (stats : gmap string nat)
  : gmap string nat :=
  fold_left (fun (stats : gmap string nat) (r : string * string) =>
               <[r.1 := default 0 (stats !! r.1) + 1]> stats)
            (omap yaml_rule lines) stats.

(** The values a JSON file gives for a kind of rule. *)
Definition values_of (key : string) (f : option Json.document)
  : list string :=
  match f with
  | Some data =>
      concat ((fun rule : Json.rule => default [] (rule !! key))
                <$> Json.rules data)
  | None => []
  end.

End Spec.

(** ** Reading and writing text files *)
Module PyFile.
Import Py.

(** The carriage return. *)
Definition CR : ascii := ascii_of_nat 13.

(** What reading in text mode makes of the line ends of a file: a carriage
    return, with the line feed that follows it if there is one, is read as
    one line feed. *)
Fixpoint universal_newlines (s : string) : string :=
  match s with
  | EmptyString => EmptyString
  | String c s' =>
      if Ascii.eqb c CR then
        String LF
          match s' with
          | EmptyString => EmptyString
          | String c' s'' =>
              if Ascii.eqb c' LF then universal_newlines s''
              else universal_newlines s'
          end
      else String c (universal_newlines s')
  end.

(** The lines [for line in f] yields for a text: each goes up to its line
    feed and keeps it, the last one may have none. *)
Fixpoint text_lines (s : string) : list string :=
  match s with
  | EmptyString => []
  | String c s' =>
      if Ascii.eqb c LF then String LF EmptyString :: text_lines s'
      else cons_field c (text_lines s')
  end.

(** The lines read from a file that holds [content]. *)
Definition read_lines (content : string) : list string :=
  text_lines (universal_newlines content).

End PyFile.

(** ** Further notions the properties are stated with *)
Module Notions.
Import Py PyFile.

(** A value that no line reader takes for a comment or cuts in two: it
    does not start with [#] and holds neither a line feed nor a carriage
    return. *)
Definition one_line (v : string) : Prop :=
  startswith v "#" = false /\
  Spec.mentions LF v = false /\ Spec.mentions CR v = false.

(** A value the existing list gives back as it was saved: trimmed, not
    empty, and on one line. *)
Definition persistable (v : string) : Prop :=
  strip v = v /\ v <> EmptyString /\ one_line v.

(** The text that follows [prefix] in [s], when [s] starts with it. *)
Definition after (prefix s : string) : option string :=
  if startswith s prefix then Some (drop (len prefix) s) else None.

(** The address of an IP-CIDR line: the field between the first comma and
    the next one. *)
Definition cidr_of (line : string) : option string :=
  if startswith line "IP-CIDR," || startswith line "IP-CIDR6,"
  then split ","%char line !! 1
  else None.



(** A line [list_to_json] reads as a rule: trimmed, it has two fields or
    more. *)
Definition has_fields (line : string) : bool :=
  2 <=? length (split ","%char (strip line)).

(** The kind of a payload rule: its text before the first comma. *)
Definition kind_of (rule : string) : option string :=
  split ","%char rule !! 0.

(** A line the YAML converter reads as a rule: trimmed, it is no comment
    and has two fields or more. *)
Definition candidate (line : string) : bool :=
  negb (startswith (strip line) "#") && has_fields line.



End Notions.


(** ** list_to_json_converter.py: converting one file *)
Module ListToJsonConverterMore.
Import Py ListToJsonConverter.
Local Open Scope outcome_scope.

(** The dictionary [stats] of [convert_list_to_json]. *)
Record stats : Type := Stats {
  stats_domain : nat;
  stats_domain_keyword : nat;
  stats_domain_suffix : nat;
  stats_ip_cidr : nat
}.




End ListToJsonConverterMore.


(** ** list_to_yaml_converter.py: writing and merging *)
Module ListToYamlMore.
Import Py ListToYaml.
Local Open Scope outcome_scope.

(** [sep.join(xs)] *)
Fixpoint join (sep : string) (xs : list string) : string :=
  match xs with
  | [] => EmptyString
  | x :: xs' =>
      match xs' with
      | [] => x
      | _ :: _ => x +:+ sep +:+ join sep xs'
      end
  end.

(** [str(n)] for a count: its digits in base ten.  [fuel] bounds the number
    of digits. *)
Fixpoint str_digits (fuel n : nat) (acc : string) : string :=
  match fuel with
  | O => acc
  | S fuel' =>
      let acc' := String (ascii_of_nat (48 + n mod 10)) acc in
      if n / 10 =? 0 then acc' else str_digits fuel' (n / 10) acc'
  end.

Definition str_nat (n : nat) : string := str_digits (S n) n EmptyString.

(** [str(z)] for an integer. *)
Definition str_int (z : Z) : string :=
  if (z <? 0)%Z then "-" +:+ str_nat (Z.to_nat (- z))
  else str_nat (Z.to_nat z).

(** [f"{metadata.get(key, '')}"] *)
Definition format_meta (md : gmap string meta_value) (key : string) : string :=
  match md !! key with
  | Some (MStr s) => s
  | Some (MInt n) => str_int n
  | None => EmptyString
  end.

(** [convert_to_yaml(data, original_filename)]: the YAML text. *)
Definition convert_to_yaml (data : state) : string :=
  let yaml_lines :=
    [ "# NAME: " +:+ format_meta (metadata data) "NAME";
      "# AUTHOR: " +:+ format_meta (metadata data) "AUTHOR";
      "# REPO: " +:+ format_meta (metadata data) "REPO";
      "# UPDATED: " +:+ format_meta (metadata data) "UPDATED" ] in
  let yaml_lines :=
    fold_left
      (fun yaml_lines key =>
         match stats data !! key with
         | Some n => yaml_lines ++ ["# " +:+ key +:+ ": " +:+ str_nat n]
         | None => yaml_lines
         end)
      ["DOMAIN-KEYWORD"; "DOMAIN-SUFFIX"; "IP-CIDR"; "IP-CIDR6"] yaml_lines in
  let yaml_lines :=
    yaml_lines ++ ["# TOTAL: " +:+ str_nat (length (rules data))] in
  let yaml_lines := yaml_lines ++ ["payload:"] in
  let yaml_lines :=
    fold_left (fun yaml_lines rule => yaml_lines ++ ["  - " +:+ rule])
              (rules data) yaml_lines in
  join newline yaml_lines.

(** The variables of [merge_yaml_files]. *)
Record merging : Type := Merging {
  merged_lines : list string;
  total_rules : nat;
  rule_stats : gmap string nat;
  all_rules : list string;
  seen_rules : gset string
}.

(** One turn of the loop over the lines of a YAML text. *)
Definition merge_line (m : merging) (line : string) : outcome merging :=
  let stripped := strip line in
  if startswith stripped "#" || String.eqb stripped "payload:" then Return m
  else if startswith stripped "- " then
    let rule := strip (drop 2 stripped) in
    if truthy rule && negb (bool_decide (rule ∈ seen_rules m)) then
      val rule_type <- index (split ","%char rule) 0 ;;
      Return (Merging (merged_lines m) (total_rules m + 1)
                (<[rule_type := default 0 (rule_stats m !! rule_type) + 1]>
                   (rule_stats m))
                (all_rules m ++ [rule]) ({[ rule ]} ∪ seen_rules m))
    else Return m
  else Return m.

(** One turn of the loop over [yaml_contents]. *)
Definition merge_content (m : merging) (named : string * string)
  : outcome merging :=
  let '(filename, content) := named in
  let m := Merging (merged_lines m ++ ["# SOURCE: " +:+ filename])
                   (total_rules m) (rule_stats m) (all_rules m)
                   (seen_rules m) in
  for_state (split LF content) m merge_line.

(** [sorted(rule_stats.items())]: the kinds are all different, so the
    pairs come in the order of the kinds. *)
Definition sorted_items (stats : gmap string nat) : list (string * nat) :=
  (fun kind => (kind, default 0 (stats !! kind)))
    <$> sorted (fun kind => kind) (fst <$> map_to_list stats).

(** [merge_yaml_files(yaml_contents, output_dir)]: the text written to the
    merged file, with the variables at the end of the loop. *)
Definition merge_yaml_files (yaml_contents : list (string * string))
  : outcome (string * merging) :=
  let start :=
    Merging [ "# NAME: Merged Proxy DNS Rules";
              "# AUTHOR: Auto-generated";
              "# TOTAL FILES: " +:+ str_nat (length yaml_contents) ]
            0 ∅ [] ∅ in
  val m <- for_state yaml_contents start merge_content ;;
  let lines := merged_lines m ++ ["#"; "# Rule Statistics:"] in
  let lines :=
    fold_left
      (fun lines '(rule_type, count) =>
         lines ++ ["# " +:+ rule_type +:+ ": " +:+ str_nat count])
      (sorted_items (rule_stats m)) lines in
  let lines :=
    lines ++ ["# TOTAL: " +:+ str_nat (total_rules m); "#"; "payload:"] in
  let lines :=
    fold_left (fun lines rule => lines ++ ["  - " +:+ rule])
              (all_rules m) lines in
  Return (join newline lines, m).

End ListToYamlMore.

(** ** domain_merge_optimizer.py: the name of a downloaded file *)
Module DomainMergeOptimizerMore.
Import Py.
Local Open Scope outcome_scope.

(** [xs[-1]] *)
Definition index_last {A : Type} (xs : list A) : outcome A :=
  match last xs with
  | Some x => Return x
  | None => Raise IndexError
  end.

(** The name [download_or_load_list_file] gives the file it saves the
    download of [source] under: the text after the last slash, cut at a
    question mark, with [.list] added when it does not end so. *)
Definition download_filename (source : string) : outcome string :=
  val filename <- index_last (split "/"%char source) ;;
  val filename <-
    (if contains filename "?" then index (split "?"%char filename) 0
     else Return filename) ;;
  Return (if negb (endswith filename ".list") then filename +:+ ".list"
          else filename).

End DomainMergeOptimizerMore.

(** ** Notions the properties of the YAML merger are stated with *)
Module MergeNotions.
Import Py ListToYaml ListToYamlMore.

(** The rule a line of a YAML text gives the merger: the line, trimmed,
    starts with a dash and a space, and the rule is the rest, trimmed, when
    it is not empty. *)
Definition payload_rule (line : string) : option string :=
  let stripped := strip line in
  if startswith stripped "- " then
    let rule := strip (drop 2 stripped) in
    if truthy rule then Some rule else None
  else None.

(** The texts of [xs] that are not in [seen], each one kept where it is
    met first. *)
Fixpoint keep_first (seen : gset string) (xs : list string) : list string :=
  match xs with
  | [] => []
  | x :: xs' =>
      if decide (x ∈ seen) then keep_first seen xs'
      else x :: keep_first ({[ x ]} ∪ seen) xs'
  end.

(** The lines of all the texts handed to the merger, in order. *)
Definition lines_of (yaml_contents : list (string * string)) : list string :=
  concat ((fun named : string * string => split LF named.2)
            <$> yaml_contents).

(** The number of rules of [rules] whose text before the first comma is
    [kind]. *)
Definition kind_count (kind : string) (rules : list string) : nat :=
  length (filter (fun rule => split ","%char rule !! 0 = Some kind) rules).

(** From [m] to [m'], the merger has met the rules [found]: those it had
    not seen are appended in order, counted in the total and counted under
    their kind, and all of them are seen. *)
Definition absorbs (m m' : merging) (found : list string) : Prop :=
  let kept := keep_first (seen_rules m) found in
  all_rules m' = all_rules m ++ kept /\
  seen_rules m' = list_to_set found ∪ seen_rules m /\
  total_rules m' = total_rules m + length kept /\
  (forall kind,
     default 0 (rule_stats m' !! kind)
     = default 0 (rule_stats m !! kind) + kind_count kind kept) /\
  (forall kind,
     is_Some (rule_stats m' !! kind) ->
     is_Some (rule_stats m !! kind) \/ 0 < kind_count kind kept).

End MergeNotions.

(** * Properties *)

(** ** Text *)
Section StrFacts.
Import Py.

Lemma str_app_nil (b : string) : EmptyString +:+ b = b.
Proof. reflexivity. Qed.

Lemma str_app_cons (c : ascii) (a b : string) :
  String c a +:+ b = String c (a +:+ b).
Proof. reflexivity. Qed.

Lemma str_app_nil_r (a : string) : a +:+ EmptyString = a.
Proof. induction a as [|c a IH]; [done|]. by rewrite str_app_cons, IH. Qed.

Lemma str_app_assoc (a b c : string) : (a +:+ b) +:+ c = a +:+ (b +:+ c).
Proof.
  induction a as [|x a IH]; [done|]. by rewrite !str_app_cons, IH.
Qed.

Lemma len_app (a b : string) : len (a +:+ b) = len a + len b.
Proof.
  unfold len. induction a as [|c a IH]; [done|].
  rewrite str_app_cons. simpl. by rewrite IH.
Qed.

Lemma take_drop (n : nat) (s : string) : take n s +:+ drop n s = s.
Proof.
  revert s. induction n as [|n IH]; intros [|c s]; try done.
  simpl. by rewrite str_app_cons, IH.
Qed.

Lemma take_app_len (a b : string) : take (len a) (a +:+ b) = a.
Proof.
  induction a as [|c a IH]; [by destruct b|].
  rewrite str_app_cons. simpl. by rewrite IH.
Qed.

Lemma drop_app_len (a b : string) : drop (len a) (a +:+ b) = b.
Proof.
  induction a as [|c a IH]; [by destruct b|].
  rewrite str_app_cons. simpl. apply IH.
Qed.

Lemma startswith_iff (s p : string) :
  startswith s p = true <-> exists q, s = p +:+ q.
Proof.
  unfold startswith. rewrite andb_true_iff, Nat.leb_le, String.eqb_eq. split.
  - intros [_ Heq]. exists (drop (len p) s).
    rewrite <- Heq at 1. apply eq_sym, take_drop.
  - intros [q ->]. rewrite len_app, take_app_len. split; [lia|done].
Qed.

Lemma endswith_iff (s p : string) :
  endswith s p = true <-> exists q, s = q +:+ p.
Proof.
  unfold endswith. rewrite andb_true_iff, Nat.leb_le, String.eqb_eq. split.
  - intros [_ Heq]. exists (take (len s - len p) s).
    rewrite <- Heq at 2. apply eq_sym, take_drop.
  - intros [q ->]. rewrite len_app.
    replace (len q + len p - len p) with (len q) by lia.
    rewrite drop_app_len. split; [lia|done].
Qed.

End StrFacts.

(** ** The covering predicate *)
Section Covering.
Import Py DomainMergeOptimizer Spec.

Lemma child_of_neq (d s : string) : child_of d s -> d <> s.
Proof.
  intros [p ->] Heq. apply (f_equal len) in Heq.
  rewrite !len_app in Heq. simpl in Heq. lia.
Qed.

Lemma is_subdomain_of_child (d s : string) :
  is_subdomain_of d s = true <-> child_of d s.
Proof.
  unfold is_subdomain_of. split.
  - destruct (String.eqb d s); [done|].
    destruct (endswith d ("." +:+ s)) eqn:He; [|done].
    intros _. by apply endswith_iff in He.
  - intros Hc. pose proof (child_of_neq _ _ Hc) as Hne.
    apply String.eqb_neq in Hne. rewrite Hne.
    apply endswith_iff in Hc. by rewrite Hc.
Qed.

(** C1. [is_subdomain_of d s], the covering predicate, is true exactly when
    [d] differs from [s] and ends with a dot followed by [s]; it holds of
    mail.example.com under example.com and fails for example.com itself and
    for notexample.com. *)
Theorem covers_correct :
  (forall d s : string,
     is_subdomain_of d s = true <->
     d <> s /\ exists p, d = p +:+ "." +:+ s) /\
  is_subdomain_of "mail.example.com" "example.com" = true /\
  is_subdomain_of "example.com" "example.com" = false /\
  is_subdomain_of "notexample.com" "example.com" = false.
Proof.
  split; [|by vm_compute].
  intros d s. rewrite is_subdomain_of_child. split.
  - intros Hc. split; [by apply child_of_neq|exact Hc].
  - by intros [_ Hc].
Qed.

End Covering.

(** ** Running the optimizer on the heap *)
Section OptimizeRun.
Import Py DomainMergeOptimizer Spec.
Local Open Scope py_scope.

Lemma covered_loop_existsb (d : string) (ss : list string) (n : nat) :
  covered_loop d ss false n =
  (existsb (is_subdomain_of d) ss,
   if existsb (is_subdomain_of d) ss then n + 1 else n).
Proof.
  induction ss as [|s ss IH]; [done|]. simpl.
  by destruct (is_subdomain_of d s).
Qed.

Lemma existsb_elements_covered (S : gset string) (d : string) :
  existsb (is_subdomain_of d) (elements S) = true <-> covered_by S d.
Proof.
  rewrite existsb_exists. unfold covered_by, set_Exists.
  split; intros (s & Hs & Hc); exists s; split; try done.
  - by apply elem_of_elements, list_elem_of_In.
  - by apply list_elem_of_In, elem_of_elements.
Qed.

Lemma optimize_body_run (h : heap) (o ls : ref) (X S : gset string)
    (n : nat) (d : string) :
  h !! o = Some X -> h !! ls = Some S ->
  optimize_body o ls n d h =
  if decide (covered_by S d) then (Return (n + 1), h)
  else (Return n, <[o := X ∪ {[d]}]> h).
Proof.
  intros Ho Hls. unfold optimize_body, iterate, read, bind, ret, add.
  rewrite Hls, covered_loop_existsb.
  destruct (decide (covered_by S d)) as [Hc|Hc].
  - apply existsb_elements_covered in Hc. by rewrite Hc.
  - destruct (existsb _ _) eqn:He.
    + by apply existsb_elements_covered in He.
    + simpl. by rewrite Ho.
Qed.

Lemma optimize_loop_run (o ls : ref) (S : gset string) (ds : list string) :
  o <> ls ->
  forall (h : heap) (X : gset string) (n : nat),
    h !! o = Some X -> h !! ls = Some S ->
    for_fold ds n (optimize_body o ls) h =
    (Return (n + length (filter (covered_by S) ds)),
     <[o := X ∪ list_to_set (filter (fun d => ~ covered_by S d) ds)]> h).
Proof.
  intros Hne. induction ds as [|d ds IH]; intros h X n Ho Hls.
  - simpl. unfold ret. f_equal; [f_equal; lia|].
    rewrite insert_id; [done|]. rewrite Ho. f_equal.
    symmetry. apply union_empty_r_L.
  - simpl. unfold bind at 1. rewrite (optimize_body_run h o ls X S n d Ho Hls).
    rewrite !filter_cons.
    destruct (decide (covered_by S d)) as [Hc|Hc].
    + rewrite (IH h X (n + 1) Ho Hls).
      rewrite decide_False by tauto. simpl. f_equal. f_equal. lia.
    + rewrite (IH (<[o := X ∪ {[d]}]> h) (X ∪ {[d]}) n).
      * rewrite decide_True by done. rewrite insert_insert_eq.
        by rewrite list_to_set_cons, union_assoc_L.
      * apply lookup_insert_eq.
      * by rewrite lookup_insert_ne.
Qed.

Lemma list_to_set_filter_elements (P : string -> Prop)
    `{!forall x, Decision (P x)} (D : gset string) :
  list_to_set (filter P (elements D)) = filter P D.
Proof.
  apply set_eq. intros x.
  rewrite elem_of_list_to_set, list_elem_of_filter, elem_of_elements.
  by rewrite elem_of_filter.
Qed.

Lemma fresh_not_allocated (h : heap) (r : ref) (X : gset string) :
  h !! r = Some X -> fresh (dom h) <> r.
Proof.
  intros Hr <-. apply (is_fresh (dom h)), elem_of_dom. by exists X.
Qed.

(** The call [optimize_domains(all_domains, domain_suffixes)] ends
    normally: it writes [optimize D S] to a set that did not exist and
    leaves the rest of the heap as it was. *)
Lemma optimize_domains_run (h : heap) (ld ls : ref) (D S : gset string) :
  h !! ld = Some D -> h !! ls = Some S ->
  optimize_domains ld ls h =
  (Return (fresh (dom h), length (filter (covered_by S) (elements D))),
   <[fresh (dom h) := optimize D S]> h).
Proof.
  intros Hld Hls.
  assert (fresh (dom h) <> ld) as Hold by (by eapply fresh_not_allocated).
  assert (fresh (dom h) <> ls) as Hols by (by eapply fresh_not_allocated).
  unfold optimize_domains, new_set, iterate, read, bind, ret. simpl.
  rewrite lookup_insert_ne by done. rewrite Hld.
  rewrite (optimize_loop_run _ ls S (elements D) Hols _ ∅ 0).
  - rewrite insert_insert_eq, list_to_set_filter_elements, union_empty_l_L.
    done.
  - apply lookup_insert_eq.
  - by rewrite lookup_insert_ne.
Qed.

End OptimizeRun.

(** ** Parsing and merging into set objects *)
Section ParseRun.
Import Py DomainMergeOptimizer Spec.
Local Open Scope py_scope.

Lemma bind_Return {A B : Type} (m : M A) (k : A -> M B) (h : heap)
    (a : A) (h' : heap) :
  m h = (Return a, h') -> bind m k h = k a h'.
Proof. intros Hm. unfold bind. by rewrite Hm. Qed.

Lemma split_max_zero (sep : ascii) (s : string) : split_max sep 0 s = [s].
Proof. by destruct s. Qed.

Lemma startswith_domain (line : string) :
  startswith line "DOMAIN," = true ->
  split_max ","%char 1 line = ["DOMAIN"; drop 7 line] /\
  truthy line = true /\ startswith line "#" = false /\
  startswith line "DOMAIN-SUFFIX," = false.
Proof.
  intros [q ->]%startswith_iff. rewrite !str_app_cons, str_app_nil.
  unfold startswith. cbn. rewrite split_max_zero.
  split_and!; try done. apply andb_false_r.
Qed.

Lemma startswith_suffix (line : string) :
  startswith line "DOMAIN-SUFFIX," = true ->
  split_max ","%char 1 line = ["DOMAIN-SUFFIX"; drop 14 line] /\
  truthy line = true /\ startswith line "#" = false /\
  startswith line "DOMAIN," = false.
Proof.
  intros [q ->]%startswith_iff. rewrite !str_app_cons, str_app_nil. cbn.
  by rewrite split_max_zero.
Qed.

Lemma rule_set_Some (x : string) : rule_set (Some x) = {[x]}.
Proof. unfold rule_set. simpl. apply union_empty_r_L. Qed.

Lemma add_run (h : heap) (r : ref) (X : gset string) (x : string) :
  h !! r = Some X -> add r x h = (Return tt, <[r := X ∪ {[x]}]> h).
Proof. intros Hr. unfold add. by rewrite Hr. Qed.

Lemma parse_line_run (h : heap) (rd rs : ref) (X Y : gset string)
    (line : string) :
  rd <> rs -> h !! rd = Some X -> h !! rs = Some Y ->
  exists h',
    parse_line rd rs line h = (Return tt, h') /\
    h' !! rd = Some (X ∪ rule_set (declared_domain line)) /\
    h' !! rs = Some (Y ∪ rule_set (declared_suffix line)) /\
    forall r, r <> rd -> r <> rs -> h' !! r = h !! r.
Proof.
  intros Hne Hrd Hrs.
  unfold parse_line, declared_domain, declared_suffix, declared.
  set (l := strip line).
  change ("DOMAIN" +:+ ",") with "DOMAIN,".
  change ("DOMAIN-SUFFIX" +:+ ",") with "DOMAIN-SUFFIX,".
  change (len "DOMAIN" + 1) with 7. change (len "DOMAIN-SUFFIX" + 1) with 14.
  destruct (startswith l "DOMAIN,") eqn:Hd.
  - destruct (startswith_domain l Hd) as (Hsplit & Ht & Hc & Hs).
    rewrite Ht, Hc, Hs, Hsplit. generalize (drop 7 l). intros rest.
    unfold bind, lift, index. simpl.
    destruct (truthy (strip rest)).
    + rewrite (add_run h rd X _ Hrd). eexists. split; [done|].
      rewrite lookup_insert_eq, rule_set_Some.
      rewrite lookup_insert_ne by done. unfold rule_set. simpl.
      rewrite union_empty_r_L. split_and!; try done.
      intros r ? ?. by rewrite lookup_insert_ne.
    + exists h. unfold ret, rule_set. simpl. rewrite !union_empty_r_L. done.
  - destruct (startswith l "DOMAIN-SUFFIX,") eqn:Hs.
    + destruct (startswith_suffix l Hs) as (Hsplit & Ht & Hc & _).
      rewrite Ht, Hc, Hsplit. generalize (drop 14 l). intros rest.
      unfold bind, lift, index. simpl.
      destruct (truthy (strip rest)).
      * rewrite (add_run h rs Y _ Hrs). eexists. split; [done|].
        rewrite lookup_insert_eq, rule_set_Some.
        rewrite lookup_insert_ne by done. unfold rule_set. simpl.
        rewrite union_empty_r_L. split_and!; try done.
        intros r ? ?. by rewrite lookup_insert_ne.
      * exists h. unfold ret, rule_set. simpl. rewrite !union_empty_r_L. done.
    + exists h. unfold ret, rule_set. simpl. rewrite !union_empty_r_L.
      by destruct (negb (truthy l) || startswith l "#").
Qed.

Lemma domains_of_cons (line : string) (f : file) :
  domains_of (line :: f) = rule_set (declared_domain line) ∪ domains_of f.
Proof.
  unfold domains_of, rule_set. simpl.
  destruct (declared_domain line); simpl; [|by rewrite union_empty_l_L].
  by rewrite union_empty_r_L.
Qed.

Lemma suffixes_of_cons (line : string) (f : file) :
  suffixes_of (line :: f) = rule_set (declared_suffix line) ∪ suffixes_of f.
Proof.
  unfold suffixes_of, rule_set. simpl.
  destruct (declared_suffix line); simpl; [|by rewrite union_empty_l_L].
  by rewrite union_empty_r_L.
Qed.

Lemma parse_lines_run (rd rs : ref) (f : file) :
  rd <> rs ->
  forall (h : heap) (X Y : gset string),
    h !! rd = Some X -> h !! rs = Some Y ->
    exists h',
      for_each f (parse_line rd rs) h = (Return tt, h') /\
      h' !! rd = Some (X ∪ domains_of f) /\
      h' !! rs = Some (Y ∪ suffixes_of f) /\
      forall r, r <> rd -> r <> rs -> h' !! r = h !! r.
Proof.
  intros Hne. induction f as [|line f IH]; intros h X Y Hrd Hrs.
  - exists h. unfold domains_of, suffixes_of. simpl.
    by rewrite !union_empty_r_L.
  - destruct (parse_line_run h rd rs X Y line Hne Hrd Hrs)
      as (h1 & Hrun & Hrd1 & Hrs1 & Hfr1).
    destruct (IH h1 _ _ Hrd1 Hrs1) as (h2 & Hrun2 & Hrd2 & Hrs2 & Hfr2).
    exists h2. simpl. unfold bind. rewrite Hrun, Hrun2.
    rewrite domains_of_cons, suffixes_of_cons, !union_assoc_L.
    split_and!; try done.
    intros r ? ?. rewrite Hfr2 by done. by apply Hfr1.
Qed.

(** [parse_list_file] never raises: it returns two sets that did not
    exist, holding the partitions of the file, and changes no other. *)
Lemma parse_list_file_run (h : heap) (f : file) :
  exists (r1 r2 : ref) (h' : heap),
    parse_list_file f h = (Return (r1, r2), h') /\
    h !! r1 = None /\ h !! r2 = None /\ r1 <> r2 /\
    h' !! r1 = Some (domains_of f) /\
    h' !! r2 = Some (suffixes_of f) /\
    forall r, r <> r1 -> r <> r2 -> h' !! r = h !! r.
Proof.
  set (r1 := fresh (dom h)).
  set (h1 := <[r1 := ∅]> h).
  set (r2 := fresh (dom h1)).
  set (h2 := <[r2 := ∅]> h1).
  assert (h !! r1 = None) as Hr1.
  { apply not_elem_of_dom, is_fresh. }
  assert (h1 !! r2 = None) as Hr2.
  { apply not_elem_of_dom, is_fresh. }
  assert (r1 <> r2) as Hne.
  { intros Heq. unfold h1 in Hr2. rewrite <- Heq, lookup_insert_eq in Hr2.
    done. }
  assert (h !! r2 = None) as Hr2'.
  { unfold h1 in Hr2. by rewrite lookup_insert_ne in Hr2. }
  destruct (parse_lines_run r1 r2 f Hne h2 ∅ ∅) as (h3 & Hrun & Hd & Hs & Hfr).
  { unfold h2, h1. rewrite lookup_insert_ne by done. apply lookup_insert_eq. }
  { apply lookup_insert_eq. }
  exists r1, r2, h3.
  rewrite union_empty_l_L in Hd, Hs. split_and!; try done.
  - unfold parse_list_file.
    rewrite (bind_Return _ _ h r1 h1) by done.
    rewrite (bind_Return _ _ h1 r2 h2) by done.
    rewrite (bind_Return _ _ h2 tt h3); [done|].
    unfold try_except. by rewrite Hrun.
  - intros r ? ?. rewrite Hfr by done. unfold h2, h1.
    by rewrite !lookup_insert_ne.
Qed.

Lemma update_run (h : heap) (r t : ref) (X T : gset string) :
  h !! r = Some X -> h !! t = Some T ->
  update r t h = (Return tt, <[r := X ∪ T]> h).
Proof.
  intros Hr Ht. unfold update, read, bind. by rewrite Ht, Hr.
Qed.

(** One turn of the loop of step 3. *)
Lemma main_parse_body_run (h : heap) (ad asx : ref) (AD AS : gset string)
    (f : file) :
  ad <> asx -> h !! ad = Some AD -> h !! asx = Some AS ->
  exists h',
    (do ' (domains, suffixes) <- parse_list_file f ;;
     update ad domains ;; update asx suffixes) h = (Return tt, h') /\
    h' !! ad = Some (AD ∪ domains_of f) /\
    h' !! asx = Some (AS ∪ suffixes_of f) /\
    forall r X, r <> ad -> r <> asx -> h !! r = Some X -> h' !! r = Some X.
Proof.
  intros Hne Had Has.
  destruct (parse_list_file_run h f)
    as (r1 & r2 & h1 & Hrun & Hr1 & Hr2 & Hr12 & Hd & Hs & Hfr).
  assert (ad <> r1) by congruence. assert (ad <> r2) by congruence.
  assert (asx <> r1) by congruence. assert (asx <> r2) by congruence.
  eexists. split_and!.
  - rewrite (bind_Return _ _ h (r1, r2) h1 Hrun).
    rewrite (bind_Return _ _ h1 tt (<[ad := AD ∪ domains_of f]> h1)).
    + apply update_run; [|by rewrite lookup_insert_ne].
      rewrite lookup_insert_ne by done. rewrite Hfr by done. exact Has.
    + apply update_run; [|done]. rewrite Hfr by done. exact Had.
  - rewrite lookup_insert_ne by done. apply lookup_insert_eq.
  - apply lookup_insert_eq.
  - intros r X ? ? Hr. rewrite !lookup_insert_ne by done.
    rewrite Hfr; [done|congruence|congruence].
Qed.

Lemma main_parse_loop_run (ad asx : ref) (files : list file) :
  ad <> asx ->
  forall (h : heap) (AD AS : gset string),
    h !! ad = Some AD -> h !! asx = Some AS ->
    exists h',
      for_each files (fun filepath =>
        do ' (domains, suffixes) <- parse_list_file filepath ;;
        update ad domains ;; update asx suffixes) h = (Return tt, h') /\
      h' !! ad = Some (AD ∪ ⋃ (domains_of <$> files)) /\
      h' !! asx = Some (AS ∪ ⋃ (suffixes_of <$> files)) /\
      forall r X, r <> ad -> r <> asx -> h !! r = Some X -> h' !! r = Some X.
Proof.
  intros Hne. induction files as [|f files IH]; intros h AD AS Had Has.
  - exists h. simpl. by rewrite !union_empty_r_L.
  - destruct (main_parse_body_run h ad asx AD AS f Hne Had Has)
      as (h1 & Hrun1 & Had1 & Has1 & Hfr1).
    destruct (IH h1 _ _ Had1 Has1) as (h2 & Hrun2 & Had2 & Has2 & Hfr2).
    exists h2. split_and!.
    + simpl. by rewrite (bind_Return _ _ h tt h1 Hrun1).
    + by rewrite Had2, fmap_cons, union_list_cons, union_assoc_L.
    + by rewrite Has2, fmap_cons, union_list_cons, union_assoc_L.
    + intros r X ? ? Hr. apply Hfr2; [done..|]. by apply Hfr1.
Qed.

(** Step 3 never raises: the two running sets are new and hold the unions
    of the partitions of the files, and the sets of the heap it started
    from are as they were. *)
Lemma main_parse_run (h : heap) (files : list file) :
  exists (ad asx : ref) (h' : heap),
    main_parse files h = (Return (ad, asx), h') /\
    h !! ad = None /\ h !! asx = None /\ ad <> asx /\
    h' !! ad = Some (⋃ (domains_of <$> files)) /\
    h' !! asx = Some (⋃ (suffixes_of <$> files)) /\
    forall r X, h !! r = Some X -> h' !! r = Some X.
Proof.
  set (ad := fresh (dom h)).
  set (h1 := <[ad := ∅]> h).
  set (asx := fresh (dom h1)).
  set (h2 := <[asx := ∅]> h1).
  assert (h !! ad = None) as Had by apply not_elem_of_dom, is_fresh.
  assert (h1 !! asx = None) as Has by apply not_elem_of_dom, is_fresh.
  assert (ad <> asx) as Hne.
  { intros Heq. unfold h1 in Has. rewrite <- Heq, lookup_insert_eq in Has.
    done. }
  assert (h !! asx = None) as Has'.
  { unfold h1 in Has. by rewrite lookup_insert_ne in Has. }
  destruct (main_parse_loop_run ad asx files Hne h2 ∅ ∅)
    as (h3 & Hrun & Hd & Hs & Hfr).
  { unfold h2, h1. rewrite lookup_insert_ne by done. apply lookup_insert_eq. }
  { apply lookup_insert_eq. }
  exists ad, asx, h3. rewrite union_empty_l_L in Hd, Hs.
  split_and!; try done.
  - unfold main_parse.
    rewrite (bind_Return _ _ h ad h1) by done.
    rewrite (bind_Return _ _ h1 asx h2) by done.
    by rewrite (bind_Return _ _ h2 tt h3 Hrun).
  - intros r X Hr. apply Hfr; [congruence|congruence|].
    unfold h2, h1. rewrite !lookup_insert_ne by congruence. done.
Qed.

Lemma load_line_run (h : heap) (r : ref) (X : gset string) (line : string) :
  h !! r = Some X ->
  load_line r line h = (Return tt, <[r := X ∪ rule_set (listed line)]> h).
Proof.
  intros Hr. unfold load_line, listed.
  destruct (truthy (strip line) && negb (startswith (strip line) "#")).
  - rewrite rule_set_Some. by apply add_run.
  - unfold ret, rule_set. simpl. rewrite union_empty_r_L.
    by rewrite insert_id.
Qed.

Lemma load_loop_run (r : ref) (lines : list string) :
  forall (h : heap) (X : gset string),
    h !! r = Some X ->
    for_each lines (load_line r) h =
    (Return tt, <[r := X ∪ list_to_set (omap listed lines)]> h).
Proof.
  induction lines as [|line lines IH]; intros h X Hr.
  - simpl. unfold ret. rewrite union_empty_r_L. by rewrite insert_id.
  - simpl. rewrite (bind_Return _ _ h tt _ (load_line_run h r X line Hr)).
    rewrite (IH _ (X ∪ rule_set (listed line))) by apply lookup_insert_eq.
    rewrite insert_insert_eq. f_equal. f_equal.
    rewrite <- union_assoc_L. f_equal. unfold rule_set.
    destruct (listed line); simpl; [|by rewrite union_empty_l_L].
    by rewrite union_empty_r_L.
Qed.

Lemma load_existing_domains_run (h : heap) (f : option file) :
  load_existing_domains f h =
  (Return (fresh (dom h)), <[fresh (dom h) := existing_of f]> h).
Proof.
  unfold load_existing_domains.
  rewrite (bind_Return _ _ h (fresh (dom h)) (<[fresh (dom h) := ∅]> h))
    by done.
  destruct f as [lines|]; [|done].
  rewrite (bind_Return _ _ _ tt (<[fresh (dom h) := existing_of (Some lines)]> h)).
  - done.
  - unfold try_except.
    rewrite (load_loop_run _ lines _ ∅) by apply lookup_insert_eq.
    by rewrite insert_insert_eq, union_empty_l_L.
Qed.

Lemma main_merge_run (h : heap) (ad asx : ref) (AD AS : gset string)
    (sample : option file) :
  ad <> asx -> h !! ad = Some AD -> h !! asx = Some AS ->
  main_merge ad asx sample h =
  (Return (fresh (dom h)),
   <[ad := AD ∪ existing_of sample ∪ AS]>
     (<[fresh (dom h) := existing_of sample]> h)).
Proof.
  intros Hne Had Has. unfold main_merge.
  assert (fresh (dom h) <> ad) by (by eapply fresh_not_allocated).
  assert (fresh (dom h) <> asx) by (by eapply fresh_not_allocated).
  rewrite (bind_Return _ _ h _ _ (load_existing_domains_run h sample)).
  erewrite bind_Return; last first.
  { apply update_run; [|apply lookup_insert_eq].
    by rewrite lookup_insert_ne. }
  erewrite bind_Return; last first.
  { apply update_run; [apply lookup_insert_eq|].
    by rewrite !lookup_insert_ne. }
  by rewrite insert_insert_eq.
Qed.

(** Steps 3 to 6 never raise.  With [D] the domains and [S] the suffixes of
    the loaded files and [E] the entries of the existing list, the merged
    domain set is [D ∪ E ∪ S], the suffix set is [S], and the optimized set
    is [optimize (D ∪ E ∪ S) S]; the sets of the heap the script started
    from are as they were. *)
Lemma main_optimize_run (h : heap) (files : list file) (sample : option file) :
  let D := ⋃ (domains_of <$> files) in
  let S := ⋃ (suffixes_of <$> files) in
  let E := existing_of sample in
  exists (e : env) (h' : heap),
    main_optimize files sample h = (Return e, h') /\
    h' !! all_domains e = Some (D ∪ E ∪ S) /\
    h' !! all_suffixes e = Some S /\
    h' !! existing_domains e = Some E /\
    h' !! optimized_domains e = Some (optimize (D ∪ E ∪ S) S) /\
    forall r X, h !! r = Some X -> h' !! r = Some X.
Proof.
  intros D S E.
  destruct (main_parse_run h files)
    as (ad & asx & h1 & Hrun & Had0 & Has0 & Hne & Had & Has & Hfr).
  fold D in Had. fold S in Has.
  pose proof (main_merge_run h1 ad asx D S sample Hne Had Has) as Hmerge.
  fold E in Hmerge.
  set (ex := fresh (dom h1)) in *.
  set (h2 := <[ad := D ∪ E ∪ S]> (<[ex := E]> h1)) in *.
  assert (ex <> ad) by (by eapply fresh_not_allocated).
  assert (ex <> asx) by (by eapply fresh_not_allocated).
  assert (h2 !! ad = Some (D ∪ E ∪ S)) as Had2 by apply lookup_insert_eq.
  assert (h2 !! asx = Some S) as Has2.
  { unfold h2. by rewrite !lookup_insert_ne. }
  pose proof (optimize_domains_run h2 ad asx _ _ Had2 Has2) as Hopt.
  set (o := fresh (dom h2)) in *.
  assert (o <> ad) by (by eapply fresh_not_allocated).
  assert (o <> asx) by (by eapply fresh_not_allocated).
  assert (h2 !! ex = Some E) as Hex2.
  { unfold h2. rewrite lookup_insert_ne by done. apply lookup_insert_eq. }
  assert (o <> ex) by (by eapply fresh_not_allocated).
  exists (Env ad asx ex o). eexists. split_and!.
  - unfold main_optimize.
    rewrite (bind_Return _ _ h _ _ Hrun).
    rewrite (bind_Return _ _ h1 _ _ Hmerge).
    by rewrite (bind_Return _ _ h2 _ _ Hopt).
  - simpl. by rewrite lookup_insert_ne.
  - simpl. by rewrite lookup_insert_ne.
  - simpl. by rewrite lookup_insert_ne.
  - simpl. apply lookup_insert_eq.
  - intros r X Hr.
    assert (r <> ad) by congruence. assert (r <> asx) by congruence.
    pose proof (Hfr _ _ Hr) as Hr1.
    assert (ex <> r) by (by eapply fresh_not_allocated).
    assert (h2 !! r = Some X) as Hr2.
    { unfold h2. by rewrite !lookup_insert_ne. }
    assert (o <> r) by (by eapply fresh_not_allocated).
    by rewrite lookup_insert_ne.
Qed.

End ParseRun.

(** ** The suffix-covering reduction *)
Section Optimizer.
Import Py DomainMergeOptimizer Spec.
Local Open Scope py_scope.

Lemma elem_of_optimize (D S : gset string) (d : string) :
  d ∈ optimize D S <->
  d ∈ D /\ ~ exists s, s ∈ S /\ is_subdomain_of d s = true.
Proof.
  unfold optimize, covered_by, set_Exists. rewrite elem_of_filter. tauto.
Qed.

Lemma optimize_subseteq (D S : gset string) : optimize D S ⊆ D.
Proof. intros d. rewrite elem_of_optimize. tauto. Qed.

Lemma optimize_antitone_suffixes (D S S' : gset string) :
  S ⊆ S' -> optimize D S' ⊆ optimize D S.
Proof.
  intros Hsub d. rewrite !elem_of_optimize. intros [HD Hno]. split; [done|].
  intros (s & Hs & Hc). apply Hno. exists s. split; [by apply Hsub|done].
Qed.

Lemma optimize_fixpoint (D S : gset string) :
  optimize (optimize D S) S = optimize D S.
Proof.
  apply set_eq. intros d. rewrite !elem_of_optimize. tauto.
Qed.

Lemma covered_count (D S : gset string) :
  length (filter (covered_by S) (elements D)) = size (D ∖ optimize D S).
Proof.
  unfold size, set_size. simpl. apply Permutation_length, NoDup_Permutation.
  - apply NoDup_filter, NoDup_elements.
  - apply NoDup_elements.
  - intros d.
    rewrite list_elem_of_filter, !elem_of_elements, elem_of_difference.
    rewrite elem_of_optimize. unfold covered_by, set_Exists.
    split; [intros [Hc HD]; split; [done|]; tauto|].
    intros [HD Hno]. split; [|done].
    destruct (decide (covered_by S d)) as [Hc|Hc]; [exact Hc|].
    exfalso. apply Hno. split; [done|exact Hc].
Qed.

Lemma covered_count_optimized (D S : gset string) :
  length (filter (covered_by S) (elements (optimize D S))) = 0.
Proof.
  rewrite covered_count, optimize_fixpoint.
  by rewrite difference_diag_L, size_empty.
Qed.

(** C2. A call of [optimize_domains] on the sets [D] and [S] ends normally
    with a set [O] that holds a domain [d] of [D] exactly when no suffix of
    [S] covers it, and counts the dropped domains.  From the lines
    DOMAIN,mail.example.com, DOMAIN,example.com, DOMAIN-SUFFIX,example.com
    the script keeps example.com and drops mail.example.com. *)
Theorem optimize_retains_exactly_uncovered :
  (forall (h : heap) (ld ls : ref) (D S : gset string),
     h !! ld = Some D -> h !! ls = Some S ->
     exists (optimized : ref) (removed_count : nat) (h' : heap)
            (O : gset string),
       optimize_domains ld ls h = (Return (optimized, removed_count), h') /\
       h' !! optimized = Some O /\
       (forall d, d ∈ O <->
          d ∈ D /\ ~ exists s, s ∈ S /\ is_subdomain_of d s = true) /\
       (forall d, d ∈ D ->
          (exists s, s ∈ S /\ is_subdomain_of d s = true) -> d ∉ O) /\
       removed_count = size (D ∖ O)) /\
  (let lines := ["DOMAIN,mail.example.com" +:+ newline;
                 "DOMAIN,example.com" +:+ newline;
                 "DOMAIN-SUFFIX,example.com" +:+ newline] in
   value_at (main_optimize [lines] None) optimized_domains
     = Some {[ "example.com" ]} /\
   value_at (main_optimize [lines] None) all_suffixes
     = Some {[ "example.com" ]} /\
   fst (main [lines] None ∅) = Return ("example.com" +:+ newline)).
Proof.
  split; [|cbv zeta; split_and!; vm_compute; reflexivity].
  intros h ld ls D S Hld Hls.
  exists (fresh (dom h)), (length (filter (covered_by S) (elements D))),
    (<[fresh (dom h) := optimize D S]> h), (optimize D S).
  split_and!.
  - by apply optimize_domains_run.
  - apply lookup_insert_eq.
  - apply elem_of_optimize.
  - intros d _ Hc. rewrite elem_of_optimize. tauto.
  - apply covered_count.
Qed.

(** A heap with the two sets of the scenario. *)
Lemma optimize_retains_exactly_uncovered_witness :
  exists (optimized : ref) (removed_count : nat) (h' : heap) (O : gset string),
    optimize_domains 1 2
      {[ 1%positive := {[ "mail.example.com"; "example.com" ]};
         2%positive := {[ "example.com" ]} ]}
    = (Return (optimized, removed_count), h') /\
    h' !! optimized = Some O /\
    (forall d, d ∈ O <->
       d ∈ ({[ "mail.example.com"; "example.com" ]} : gset string) /\
       ~ exists s, s ∈ ({[ "example.com" ]} : gset string) /\
                   is_subdomain_of d s = true) /\
    (forall d, d ∈ ({[ "mail.example.com"; "example.com" ]} : gset string) ->
       (exists s, s ∈ ({[ "example.com" ]} : gset string) /\
                  is_subdomain_of d s = true) -> d ∉ O) /\
    removed_count =
      size (({[ "mail.example.com"; "example.com" ]} : gset string) ∖ O).
Proof.
  apply (proj1 optimize_retains_exactly_uncovered
           {[ 1%positive := {[ "mail.example.com"; "example.com" ]};
              2%positive := {[ "example.com" ]} ]}
           1%positive 2%positive); reflexivity.
Defined.



(** Step 5 of [main] also enters every suffix value in the domain set.  As
    an entry of that set, a suffix nested under another suffix leaves the
    optimized output; the suffix set keeps both. *)
Example nested_suffix_entry :
  let lines := ["DOMAIN-SUFFIX,a.example.com" +:+ newline;
                "DOMAIN-SUFFIX,example.com" +:+ newline] in
  value_at (main_optimize [lines] None) optimized_domains
    = Some {[ "example.com" ]} /\
  value_at (main_optimize [lines] None) all_suffixes
    = Some {[ "a.example.com"; "example.com" ]}.
Proof. cbv zeta. split; vm_compute; reflexivity. Qed.

(** C4. Optimising the optimized set again, against the same suffixes,
    gives the same set and drops nothing. *)
Theorem optimize_idempotent :
  forall (h : heap) (ld ls : ref) (D S : gset string),
    h !! ld = Some D -> h !! ls = Some S ->
    exists (o1 : ref) (n1 : nat) (h1 : heap) (o2 : ref) (n2 : nat)
           (h2 : heap) (O : gset string),
      optimize_domains ld ls h = (Return (o1, n1), h1) /\
      h1 !! o1 = Some O /\
      optimize_domains o1 ls h1 = (Return (o2, n2), h2) /\
      h2 !! o2 = Some O /\
      n2 = 0.
Proof.
  intros h ld ls D S Hld Hls.
  pose proof (optimize_domains_run h ld ls D S Hld Hls) as Hrun1.
  set (o1 := fresh (dom h)) in *.
  set (h1 := <[o1 := optimize D S]> h) in *.
  assert (o1 <> ls) by (by eapply fresh_not_allocated).
  assert (h1 !! o1 = Some (optimize D S)) as Ho1 by apply lookup_insert_eq.
  assert (h1 !! ls = Some S) as Hls1 by (by unfold h1; rewrite lookup_insert_ne).
  pose proof (optimize_domains_run h1 o1 ls _ S Ho1 Hls1) as Hrun2.
  rewrite optimize_fixpoint, covered_count_optimized in Hrun2.
  eexists o1, _, h1, _, _, _, (optimize D S).
  split_and!; [exact Hrun1|exact Ho1|exact Hrun2|apply lookup_insert_eq|done].
Qed.

Lemma optimize_idempotent_witness :
  exists (o1 : ref) (n1 : nat) (h1 : heap) (o2 : ref) (n2 : nat)
         (h2 : heap) (O : gset string),
    optimize_domains 1 2
      {[ 1%positive := {[ "mail.example.com"; "example.com" ]};
         2%positive := {[ "example.com" ]} ]}
    = (Return (o1, n1), h1) /\
    h1 !! o1 = Some O /\
    optimize_domains o1 2 h1 = (Return (o2, n2), h2) /\
    h2 !! o2 = Some O /\
    n2 = 0.
Proof.
  apply (optimize_idempotent
           {[ 1%positive := {[ "mail.example.com"; "example.com" ]};
              2%positive := {[ "example.com" ]} ]}
           1%positive 2%positive
           {[ "mail.example.com"; "example.com" ]} {[ "example.com" ]});
    reflexivity.
Defined.

(** C10. With [S] included in [S'], optimising [D] against [S'] keeps a
    subset of what optimising [D] against [S] keeps, which is a subset of
    [D]. *)
Theorem optimize_shrinks_with_more_suffixes :
  forall (h : heap) (ld ls ls' : ref) (D S S' : gset string),
    h !! ld = Some D -> h !! ls = Some S -> h !! ls' = Some S' ->
    S ⊆ S' ->
    exists (o : ref) (n : nat) (h1 : heap) (O : gset string)
           (o' : ref) (n' : nat) (h1' : heap) (O' : gset string),
      optimize_domains ld ls h = (Return (o, n), h1) /\
      h1 !! o = Some O /\
      optimize_domains ld ls' h = (Return (o', n'), h1') /\
      h1' !! o' = Some O' /\
      O' ⊆ O /\ O ⊆ D.
Proof.
  intros h ld ls ls' D S S' Hld Hls Hls' Hsub.
  eexists _, _, _, (optimize D S), _, _, _, (optimize D S').
  split_and!.
  - by apply optimize_domains_run.
  - apply lookup_insert_eq.
  - by apply optimize_domains_run.
  - apply lookup_insert_eq.
  - by apply optimize_antitone_suffixes.
  - apply optimize_subseteq.
Qed.

Lemma optimize_shrinks_with_more_suffixes_witness :
  exists (o : ref) (n : nat) (h1 : heap) (O : gset string)
         (o' : ref) (n' : nat) (h1' : heap) (O' : gset string),
    optimize_domains 1 2
      {[ 1%positive := {[ "mail.example.com"; "a.example.org" ]};
         2%positive := {[ "example.com" ]};
         3%positive := {[ "example.com"; "example.org" ]} ]}
    = (Return (o, n), h1) /\
    h1 !! o = Some O /\
    optimize_domains 1 3
      {[ 1%positive := {[ "mail.example.com"; "a.example.org" ]};
         2%positive := {[ "example.com" ]};
         3%positive := {[ "example.com"; "example.org" ]} ]}
    = (Return (o', n'), h1') /\
    h1' !! o' = Some O' /\
    O' ⊆ O /\ O ⊆ {[ "mail.example.com"; "a.example.org" ]}.
Proof.
  apply (optimize_shrinks_with_more_suffixes
           {[ 1%positive := {[ "mail.example.com"; "a.example.org" ]};
              2%positive := {[ "example.com" ]};
              3%positive := {[ "example.com"; "example.org" ]} ]}
           1%positive 2%positive 3%positive
           {[ "mail.example.com"; "a.example.org" ]}
           {[ "example.com" ]} {[ "example.com"; "example.org" ]});
    [reflexivity..|].
  set_solver.
Defined.

End Optimizer.

(** ** Aggregation *)
Section Aggregation.
Import Py Spec.
Import ListToJsonConverter.

Lemma extend_from_default (rule : Json.rule) (key : string) (xs : list string) :
  extend_from rule key xs = xs ++ default [] (rule !! key).
Proof.
  unfold extend_from. destruct (rule !! key); [done|]. by rewrite app_nil_r.
Qed.

Lemma merge_rules_fields (rls : list Json.rule) (md : rules_data) :
  let field key := concat ((fun rule : Json.rule => default [] (rule !! key))
                             <$> rls) in
  fold_left merge_rule rls md =
  RulesData (domain md ++ field "domain")
            (domain_keyword md ++ field "domain_keyword")
            (domain_suffix md ++ field "domain_suffix")
            (ip_cidr md ++ field "ip_cidr").
Proof.
  revert md. induction rls as [|rule rls IH]; intros md; simpl.
  - rewrite !app_nil_r. by destruct md.
  - rewrite IH. unfold merge_rule. simpl.
    by rewrite !extend_from_default, <- !app_assoc.
Qed.

Lemma merge_file_fields (f : option Json.document) (md : rules_data) :
  merge_file md f =
  RulesData (domain md ++ values_of "domain" f)
            (domain_keyword md ++ values_of "domain_keyword" f)
            (domain_suffix md ++ values_of "domain_suffix" f)
            (ip_cidr md ++ values_of "ip_cidr" f).
Proof.
  destruct f as [data|]; simpl.
  - apply merge_rules_fields.
  - rewrite !app_nil_r. by destruct md.
Qed.

Lemma merge_files_fields (fs : list (option Json.document)) (md : rules_data) :
  fold_left merge_file fs md =
  RulesData (domain md ++ concat (values_of "domain" <$> fs))
            (domain_keyword md ++ concat (values_of "domain_keyword" <$> fs))
            (domain_suffix md ++ concat (values_of "domain_suffix" <$> fs))
            (ip_cidr md ++ concat (values_of "ip_cidr" <$> fs)).
Proof.
  revert md. induction fs as [|f fs IH]; intros md; simpl.
  - rewrite !app_nil_r. by destruct md.
  - rewrite IH, merge_file_fields. simpl. by rewrite <- !app_assoc.
Qed.

Lemma list_set_NoDup (xs : list string) : NoDup (list_set xs).
Proof. unfold list_set. apply NoDup_elements. Qed.

Lemma list_set_elem_of (xs : list string) (x : string) :
  x ∈ list_set xs <-> x ∈ xs.
Proof. unfold list_set. by rewrite elem_of_elements, elem_of_list_to_set. Qed.


Lemma merged_data_fields (fs : list (option Json.document)) :
  merged_data fs =
  RulesData (list_set (concat (values_of "domain" <$> fs)))
            (list_set (concat (values_of "domain_keyword" <$> fs)))
            (list_set (concat (values_of "domain_suffix" <$> fs)))
            (list_set (concat (values_of "ip_cidr" <$> fs))).
Proof. unfold merged_data. by rewrite merge_files_fields. Qed.

Lemma merged_data_duplicate_free (fs : list (option Json.document)) :
  duplicate_free (merged_data fs).
Proof.
  rewrite merged_data_fields. repeat split; apply list_set_NoDup.
Qed.




End Aggregation.

(** ** The flat text writer *)
Section FlatText.
Import Py DomainMergeOptimizer Spec.




Lemma insert_by_key_perm (key : string -> string) (x : string) (l : list string) :
  insert_by_key key x l ≡ₚ x :: l.
Proof.
  induction l as [|y l IH]; [done|]. simpl.
  destruct (String.ltb (key y) (key x)); [|done].
  rewrite IH. apply Permutation_swap.
Qed.

Lemma sorted_perm (key : string -> string) (l : list string) :
  sorted key l ≡ₚ l.
Proof.
  induction l as [|x l IH]; [done|]. unfold sorted in *. simpl.
  by rewrite insert_by_key_perm, IH.
Qed.






Lemma write_lines_from (values : list string) (buf : string) :
  fold_left (fun buf domain => buf +:+ (domain +:+ newline)) values buf =
  buf +:+ flat_text values.
Proof.
  revert buf. induction values as [|v values IH]; intros buf; simpl.
  - by rewrite str_app_nil_r.
  - by rewrite IH, !str_app_assoc.
Qed.

Lemma write_lines_flat_text (values : list string) :
  write_lines values = flat_text values.
Proof. unfold write_lines. by rewrite write_lines_from. Qed.

Lemma split_field (sep : ascii) (a b : string) :
  mentions sep a = false ->
  split sep (a +:+ String sep b) = a :: split sep b.
Proof.
  induction a as [|c a IH]; intros Hno; [simpl; by rewrite Ascii.eqb_refl|].
  simpl in Hno. apply orb_false_iff in Hno as [Hc Hno].
  rewrite str_app_cons. simpl. rewrite Hc. by rewrite IH.
Qed.




End FlatText.

(** ** Lines that are no rules *)
Section Lines.
Import Py Spec.
Local Open Scope outcome_scope.


Lemma for_state_total {A S : Type} (xs : list A) (st : S)
    (body : S -> A -> outcome S) :
  (forall st x, exists st', body st x = Return st') ->
  exists st', for_state xs st body = Return st'.
Proof.
  intros Hbody. revert st. induction xs as [|x xs IH]; intros st.
  - by exists st.
  - simpl. destruct (Hbody st x) as [st' ->]. apply IH.
Qed.


(** *** list_to_json *)





(** *** list_to_yaml_converter *)

Lemma mentions_app (c : ascii) (a b : string) :
  mentions c (a +:+ b) = mentions c a || mentions c b.
Proof.
  induction a as [|x a IH]; [done|].
  rewrite str_app_cons. simpl. by rewrite IH, orb_assoc.
Qed.

Lemma contains_inv (s needle : string) :
  contains s needle = true -> exists p q, s = p +:+ needle +:+ q.
Proof.
  induction s as [|c s IH]; simpl.
  - rewrite orb_false_r. intros [q ->]%startswith_iff.
    by exists EmptyString, q.
  - intros [[q ->]%startswith_iff|Hin]%orb_true_iff;
      [by exists EmptyString, q|].
    destruct (IH Hin) as (p & q & ->). by exists (String c p), q.
Qed.

Lemma contains_mentions (c : ascii) (s a b : string) :
  contains s (a +:+ String c b) = true -> mentions c s = true.
Proof.
  intros (p & q & ->)%contains_inv.
  rewrite !mentions_app. simpl. rewrite Ascii.eqb_refl.
  by rewrite !orb_true_r.
Qed.

Lemma split_max_mentions (c : ascii) (s : string) :
  mentions c s = true -> exists a b, split_max c 1 s = [a; b].
Proof.
  induction s as [|x s IH]; [done|]. simpl.
  destruct (Ascii.eqb x c); simpl.
  - intros _. exists EmptyString, s. by destruct s.
  - intros (a & b & Hab)%IH. exists (String x a), b.
    by rewrite Hab.
Qed.

Lemma key_marker (key : string) :
  "# " +:+ key +:+ ":" = ("# " +:+ key) +:+ String ":"%char EmptyString.
Proof. by rewrite !str_app_assoc. Qed.

Lemma set_text_key_total (line : string) (md : gmap string ListToYaml.meta_value)
    (key : string) :
  exists md', ListToYaml.set_text_key line md key = Return md'.
Proof.
  unfold ListToYaml.set_text_key.
  destruct (contains line _) eqn:Hin; [|by eexists].
  rewrite key_marker in Hin. apply contains_mentions in Hin.
  destruct (split_max_mentions _ _ Hin) as (a & b & ->). by eexists.
Qed.

Lemma set_count_key_total (line : string)
    (md : gmap string ListToYaml.meta_value) (key : string) :
  exists md', ListToYaml.set_count_key line md key = Return md'.
Proof.
  unfold ListToYaml.set_count_key.
  destruct (contains line _); [|by eexists].
  match goal with |- context [match ?o with _ => _ end] => destruct o end;
    by eexists.
Qed.

(** A line never raises; it adds its rule, if it has one, to [rules] and
    to the count of its kind. *)
Lemma yaml_parse_line_run (st : ListToYaml.state) (n : nat) (line : string) :
  exists st',
    ListToYaml.parse_line st (n, line) = Return st' /\
    ListToYaml.rules st' = ListToYaml.rules st ++ yaml_rules_of [line] /\
    ListToYaml.stats st' = yaml_stats_of [line] (ListToYaml.stats st).
Proof.
  unfold ListToYaml.parse_line, yaml_rules_of, yaml_stats_of, yaml_rule.
  simpl. set (l := strip line).
  destruct (startswith l "#"); simpl.
  - destruct (for_state_total ["NAME"; "AUTHOR"; "REPO"; "UPDATED"]
                (ListToYaml.metadata st) (ListToYaml.set_text_key l))
      as [md1 Hmd1]; [intros; apply set_text_key_total|].
    destruct (for_state_total
                ["DOMAIN-KEYWORD"; "DOMAIN-SUFFIX"; "IP-CIDR"; "IP-CIDR6";
                 "TOTAL"] md1 (ListToYaml.set_count_key l))
      as [md2 Hmd2]; [intros; apply set_count_key_total|].
    unfold for_state in Hmd1, Hmd2. rewrite Hmd1. simpl. rewrite Hmd2. simpl.
    eexists. split; [done|]. simpl. by rewrite app_nil_r.
  - destruct (truthy l); simpl; [|exists st; by rewrite app_nil_r].
    destruct (split ","%char l) as [|p0 [|p1 rest]]; simpl;
      try (exists st; by rewrite app_nil_r).
    destruct (bool_decide (strip p0 ∈ ListToYaml.UNSUPPORTED_RULE_TYPES));
      simpl; [eexists; split; [done|]; simpl; by rewrite app_nil_r|].
    destruct (bool_decide (strip p0 ∈ ListToYaml.SUPPORTED_RULE_TYPES));
      simpl; [|eexists; split; [done|]; simpl; by rewrite app_nil_r].
    destruct (bool_decide (strip p0 ∈ ["IP-CIDR"; "IP-CIDR6"]));
      eexists; (split; [done|]); simpl; done.
Qed.

Lemma yaml_rules_of_cons (line : string) (lines : list string) :
  yaml_rules_of (line :: lines) = yaml_rules_of [line] ++ yaml_rules_of lines.
Proof.
  unfold yaml_rules_of. simpl. by destruct (yaml_rule line).
Qed.

Lemma yaml_stats_of_cons (line : string) (lines : list string)
    (stats : gmap string nat) :
  yaml_stats_of (line :: lines) stats =
  yaml_stats_of lines (yaml_stats_of [line] stats).
Proof.
  unfold yaml_stats_of. simpl. by destruct (yaml_rule line).
Qed.

Lemma yaml_loop_run (lines : list string) :
  forall (n : nat) (st : ListToYaml.state),
    exists st',
      for_state (ListToYaml.enumerate n lines) st ListToYaml.parse_line
        = Return st' /\
      ListToYaml.rules st' = ListToYaml.rules st ++ yaml_rules_of lines /\
      ListToYaml.stats st' = yaml_stats_of lines (ListToYaml.stats st).
Proof.
  induction lines as [|line lines IH]; intros n st.
  - exists st. by rewrite app_nil_r.
  - destruct (yaml_parse_line_run st n line) as (st1 & Hrun1 & Hr1 & Hs1).
    destruct (IH (S n) st1) as (st2 & Hrun2 & Hr2 & Hs2).
    exists st2. split.
    + change (and_then (ListToYaml.parse_line st (n, line))
                (fun st' => for_state (ListToYaml.enumerate (S n) lines) st'
                              ListToYaml.parse_line) = Return st2).
      rewrite Hrun1. exact Hrun2.
    + rewrite (yaml_rules_of_cons line lines), (yaml_stats_of_cons line lines).
      rewrite Hr2, Hr1, Hs2, Hs1.
      split; [apply eq_sym, app_assoc|done].
Qed.




Lemma yaml_parse_lines_run (lines : list string) :
  exists st,
    ListToYaml.parse_lines lines = Return st /\
    ListToYaml.rules st = yaml_rules_of lines /\
    ListToYaml.stats st = yaml_stats_of lines ∅.
Proof.
  destruct (yaml_loop_run lines 1 ListToYaml.initial) as (st & Hrun & Hr & Hs).
  by exists st.
Qed.



End Lines.

(** ** Type tokens and values across the four parsers *)
Section Parsers.
Import Py Spec.

Lemma lstrip_head (s : string) (c : ascii) (t : string) :
  lstrip s = String c t -> isspace c = false.
Proof.
  induction s as [|x s IH]; [done|]. simpl.
  destruct (isspace x) eqn:Hx; [exact IH|]. by intros [= <- _].
Qed.

Lemma rstrip_cons (c : ascii) (t : string) :
  isspace c = false -> rstrip (String c t) = String c (rstrip t).
Proof. intros Hc. simpl. rewrite Hc. by destruct (rstrip t). Qed.

Lemma rstrip_rstrip (s : string) : rstrip (rstrip s) = rstrip s.
Proof.
  induction s as [|c s IH]; [done|]. simpl.
  destruct (rstrip s) as [|x r] eqn:Hr.
  - destruct (isspace c) eqn:Hc; [done|]. simpl. by rewrite Hc.
  - change (rstrip (String c (String x r))) with
      (match rstrip (String x r) with
       | EmptyString => if isspace c then EmptyString else String c EmptyString
       | r' => String c r'
       end).
    by rewrite IH.
Qed.

Lemma strip_strip (s : string) : strip (strip s) = strip s.
Proof.
  unfold strip. destruct (lstrip s) as [|c t] eqn:Hl; [done|].
  pose proof (lstrip_head _ _ _ Hl) as Hc.
  rewrite (rstrip_cons c t Hc). simpl lstrip. rewrite Hc.
  rewrite <- (rstrip_cons c t Hc). apply rstrip_rstrip.
Qed.

Lemma declared_value (token line value : string) :
  declared token line = Some value ->
  truthy value = true /\ strip value = value.
Proof.
  unfold declared.
  destruct (startswith _ _); [|done].
  destruct (truthy (strip _)) eqn:Ht; [|done].
  intros [= <-]. split; [exact Ht|apply strip_strip].
Qed.

(** Every value [parse_list_file] of [domain_merge_optimizer] puts in a set
    is trimmed and not empty. *)
Lemma parsed_values_trimmed (f : DomainMergeOptimizer.file) (value : string) :
  value ∈ domains_of f ∪ suffixes_of f ->
  value <> EmptyString /\ strip value = value.
Proof.
  unfold domains_of, suffixes_of, declared_domain, declared_suffix.
  rewrite elem_of_union, !elem_of_list_to_set, !list_elem_of_omap.
  intros [(line & _ & Hd)|(line & _ & Hd)];
    apply declared_value in Hd as [Ht Hs]; (split; [|done]);
    by intros ->.
Qed.

(** [list_to_json] reads the type token through [upper]: two lines whose
    first fields agree in upper case, and whose other fields agree, act
    alike. *)
Lemma convert_line_token_case (st : ListToJson.state) (l1 l2 t1 t2 : string)
    (rest : list string) :
  split ","%char (strip l1) = t1 :: rest ->
  split ","%char (strip l2) = t2 :: rest ->
  upper t1 = upper t2 ->
  ListToJson.convert_line st l1 = ListToJson.convert_line st l2.
Proof.
  intros H1 H2 Hup. unfold ListToJson.convert_line. rewrite H1, H2.
  destruct rest as [|value rest].
  - simpl. by destruct (truthy (strip l1)), (truthy (strip l2)).
  - destruct (strip l1) as [|c1 s1]; [done|].
    destruct (strip l2) as [|c2 s2]; [done|].
    simpl. by rewrite Hup.
Qed.

(** C6. The line domain,foo.com gives no rule to [parse_list_file] of
    [domain_merge_optimizer], of [list_to_json_converter] and of
    [list_to_yaml_converter], where DOMAIN,foo.com gives the domain
    foo.com: these three match the type token as it is written.
    [check_list_file] counts the line as a valid rule and [list_to_json]
    reads it as DOMAIN,foo.com: these two put the token in upper case. *)
Theorem type_token_matched_as_written :
  (DomainMergeOptimizer.value_at
     (DomainMergeOptimizer.parse_list_file ["domain,foo.com"]) fst = Some ∅ /\
   DomainMergeOptimizer.value_at
     (DomainMergeOptimizer.parse_list_file ["DOMAIN,foo.com"]) fst
     = Some {[ "foo.com" ]}) /\
  (ListToJsonConverter.parse_list_file ["domain,foo.com"]
     = Return (Json.Document [] 2) /\
   ListToJsonConverter.parse_list_file ["DOMAIN,foo.com"]
     = Return (Json.Document [ {[ "domain" := ["foo.com"] ]} ] 2) /\
   ListToJsonConverter.check_list_file ["domain,foo.com"] = (true, 1)) /\
  (map_outcome ListToYaml.rules (ListToYaml.parse_list_file "domain,foo.com")
     = Return [] /\
   map_outcome ListToYaml.warnings
     (ListToYaml.parse_list_file "domain,foo.com")
     = Return [(1, "domain", "domain,foo.com")] /\
   map_outcome ListToYaml.rules (ListToYaml.parse_list_file "DOMAIN,foo.com")
     = Return ["DOMAIN,foo.com"]) /\
  (ListToJson.list_to_json (Some ["domain,foo.com"]) 2
     = ListToJson.list_to_json (Some ["DOMAIN,foo.com"]) 2 /\
   ListToJson.list_to_json (Some ["domain,foo.com"]) 2
     = Return (Some (Json.Document
                       [ {[ "domain" := ["foo.com"] ]};
                         {[ "domain_keyword" := [] ]};
                         {[ "domain_suffix" := [] ]} ] 2))).
Proof. split_and!; vm_compute; reflexivity. Qed.

(** C7. The line [DOMAIN,] gives the empty value to [parse_list_file] of
    [list_to_json_converter], to [list_to_json] and to the YAML converter,
    and the first two keep the blank before a value; [parse_list_file] of
    [domain_merge_optimizer] drops the line and trims the value. *)
Theorem empty_value_enters_converters :
  (ListToJsonConverter.parse_list_file ["DOMAIN,"]
     = Return (Json.Document [ {[ "domain" := [EmptyString] ]} ] 2) /\
   ListToJsonConverter.parse_list_file ["DOMAIN-SUFFIX, example.com"]
     = Return (Json.Document [ {[ "domain_suffix" := [" example.com"] ]} ] 2) /\
   ListToJsonConverter.parse_list_file ["IP-CIDR,,no-resolve"]
     = Return (Json.Document [ {[ "ip_cidr" := [EmptyString] ]} ] 2)) /\
  (ListToJson.list_to_json (Some ["DOMAIN,"]) 2
     = Return (Some (Json.Document
                       [ {[ "domain" := [EmptyString] ]};
                         {[ "domain_keyword" := [] ]};
                         {[ "domain_suffix" := [] ]} ] 2)) /\
   ListToJson.list_to_json (Some ["DOMAIN, foo.com"]) 2
     = Return (Some (Json.Document
                       [ {[ "domain" := [" foo.com"] ]};
                         {[ "domain_keyword" := [] ]};
                         {[ "domain_suffix" := [] ]} ] 2))) /\
  map_outcome ListToYaml.rules (ListToYaml.parse_list_file "DOMAIN,")
    = Return ["DOMAIN,"] /\
  (DomainMergeOptimizer.value_at
     (DomainMergeOptimizer.parse_list_file ["DOMAIN,"]) fst = Some ∅ /\
   DomainMergeOptimizer.value_at
     (DomainMergeOptimizer.parse_list_file ["DOMAIN, foo.com "]) fst
     = Some {[ "foo.com" ]}).
Proof. split_and!; vm_compute; reflexivity. Qed.

End Parsers.

(** * Further properties *)

(** ** domain_merge_optimizer: what is parsed, merged, saved and loaded *)
Section MergeTool.
Import Py PyFile DomainMergeOptimizer Spec Notions.
Local Open Scope py_scope.





Lemma listed_iff (line v : string) :
  listed line = Some v <->
  v = strip line /\ v <> EmptyString /\ startswith v "#" = false.
Proof.
  unfold listed. destruct (strip line) as [|c s] eqn:Hl; simpl.
  - split; [done|]. by intros (-> & ? & _).
  - destruct (startswith (String c s) "#") eqn:Hc; simpl.
    + split; [done|]. intros (-> & _ & Hv). congruence.
    + split; [by intros [= <-]|]. by intros (-> & _).
Qed.


(** X3. Steps 3 to 6 of [main] never raise.  With [D] and [S] the sets
    step 3 parses and [E] the set loaded from the existing list, the merged
    domain set is [D ∪ E ∪ S] and the optimized set holds exactly its
    entries that no suffix of [S] covers.  So a suffix that lies under no
    other suffix is always in the output. *)
Theorem main_output_characterised :
  forall (h : heap) (files : list file) (sample : option file),
    exists (e : env) (h' : heap) (D S E O : gset string),
      leaves (main_parse files) h D S /\
      (exists r h1, load_existing_domains sample h = (Return r, h1) /\
                    h1 !! r = Some E) /\
      main_optimize files sample h = (Return e, h') /\
      h' !! all_domains e = Some (D ∪ E ∪ S) /\
      h' !! all_suffixes e = Some S /\
      h' !! existing_domains e = Some E /\
      h' !! optimized_domains e = Some O /\
      (forall d, d ∈ O <->
         (d ∈ D \/ d ∈ E \/ d ∈ S) /\
         ~ exists s, s ∈ S /\ is_subdomain_of d s = true) /\
      (forall s, s ∈ S ->
         (forall s', s' ∈ S -> is_subdomain_of s s' = false) -> s ∈ O).
Proof.
  intros h files sample.
  destruct (main_optimize_run h files sample)
    as (e & h' & Hrun & Hd & Hs & He & Ho & _).
  destruct (main_parse_run h files)
    as (ad & asx & h1 & Hparse & _ & _ & _ & Hd1 & Hs1 & _).
  set (D := ⋃ (domains_of <$> files)) in *.
  set (S := ⋃ (suffixes_of <$> files)) in *.
  exists e, h', D, S, (existing_of sample),
    (optimize (D ∪ existing_of sample ∪ S) S).
  split_and!; try done.
  - by exists ad, asx, h1.
  - eexists _, _. split; [apply load_existing_domains_run|].
    apply lookup_insert_eq.
  - intros d. rewrite elem_of_optimize, !elem_of_union. tauto.
  - intros s Hs' Hno. apply elem_of_optimize. split; [set_solver|].
    intros (s' & Hs'' & Hc). by rewrite Hno in Hc.
Qed.

Lemma rstrip_snoc_space (s : string) (c : ascii) :
  isspace c = true -> rstrip (s +:+ String c EmptyString) = rstrip s.
Proof.
  intros Hc. induction s as [|x s IH].
  - simpl. by rewrite Hc.
  - rewrite str_app_cons. simpl. by rewrite IH.
Qed.

Lemma lstrip_app (s t : string) :
  lstrip s <> EmptyString -> lstrip (s +:+ t) = lstrip s +:+ t.
Proof.
  induction s as [|x s IH]; [done|]. rewrite str_app_cons. simpl.
  destruct (isspace x); [exact IH|]. by rewrite str_app_cons.
Qed.

Lemma strip_line_end (v : string) :
  strip v = v -> v <> EmptyString -> strip (v +:+ newline) = v.
Proof.
  unfold strip. intros Hv Hne.
  assert (lstrip v <> EmptyString) as Hl.
  { intros Hl. rewrite Hl in Hv. simpl in Hv. congruence. }
  rewrite (lstrip_app _ _ Hl). unfold newline.
  by rewrite rstrip_snoc_space.
Qed.

Lemma universal_newlines_id (s : string) :
  mentions CR s = false -> universal_newlines s = s.
Proof.
  induction s as [|c s IH]; [done|]. simpl.
  intros [Hc Hs]%orb_false_iff. rewrite Hc. by rewrite IH.
Qed.

Lemma text_lines_line (v rest : string) :
  mentions LF v = false ->
  text_lines (v +:+ String LF rest) = (v +:+ newline) :: text_lines rest.
Proof.
  induction v as [|c v IH].
  - intros _. by rewrite str_app_nil.
  - simpl. intros [Hc Hv]%orb_false_iff. rewrite !str_app_cons.
    change (text_lines (String c (v +:+ String LF rest)))
      with (if Ascii.eqb c LF then String LF EmptyString ::
                                     text_lines (v +:+ String LF rest)
            else cons_field c (text_lines (v +:+ String LF rest))).
    by rewrite Hc, (IH Hv).
Qed.

Lemma flat_text_cons (v : string) (l : list string) :
  flat_text (v :: l) = v +:+ String LF (flat_text l).
Proof. done. Qed.

Lemma text_lines_flat_text (l : list string) :
  Forall (fun v => mentions LF v = false) l ->
  text_lines (flat_text l) = (fun v => v +:+ newline) <$> l.
Proof.
  induction 1 as [|v l Hv _ IH]; [done|].
  by rewrite flat_text_cons, text_lines_line, IH.
Qed.

Lemma flat_text_no_CR (l : list string) :
  Forall (fun v => mentions CR v = false) l ->
  mentions CR (flat_text l) = false.
Proof.
  induction 1 as [|v l Hv _ IH]; [done|].
  rewrite flat_text_cons, mentions_app. simpl. by rewrite Hv, IH.
Qed.

Lemma listed_saved_line (v : string) :
  persistable v -> listed (v +:+ newline) = Some v.
Proof.
  intros (Hs & Hne & Hc & _ & _). apply listed_iff.
  by rewrite strip_line_end.
Qed.

Lemma omap_listed_saved (l : list string) :
  Forall persistable l -> omap listed ((fun v => v +:+ newline) <$> l) = l.
Proof.
  induction 1 as [|v l Hv _ IH]; [done|].
  csimpl. by rewrite (listed_saved_line v Hv), IH.
Qed.

Lemma read_saved_lines (it : list string) :
  Forall persistable it ->
  omap listed (read_lines (save_domains_text it)) = sorted lower it.
Proof.
  intros Hit. unfold read_lines, save_domains_text.
  rewrite write_lines_flat_text.
  assert (Forall persistable (sorted lower it)) as Hsorted
    by (by rewrite sorted_perm).
  rewrite universal_newlines_id, text_lines_flat_text.
  - by apply omap_listed_saved.
  - eapply Forall_impl; [exact Hsorted|]. by intros v (_ & _ & _ & ? & _).
  - apply flat_text_no_CR.
    eapply Forall_impl; [exact Hsorted|]. by intros v (_ & _ & _ & _ & ?).
Qed.



(** An entry that starts with [#] is written, and read back as a comment. *)
Example comment_like_entry_is_lost :
  save_domains_text ["#tag.example.com"] = "#tag.example.com" +:+ newline /\
  value_at (load_existing_domains
              (Some (read_lines (save_domains_text ["#tag.example.com"]))))
           id = Some ∅.
Proof. split; vm_compute; reflexivity. Qed.

Lemma value_at_run {A : Type} (m : M A) (sel : A -> ref) (a : A) (h : heap) :
  m ∅ = (Return a, h) -> value_at m sel = h !! sel a.
Proof. intros Hm. unfold value_at. by rewrite Hm. Qed.

Lemma main_optimize_value (files : list file) (sample : option file) :
  value_at (main_optimize files sample) optimized_domains =
  Some (optimize (⋃ (domains_of <$> files) ∪ existing_of sample
                  ∪ ⋃ (suffixes_of <$> files))
                 (⋃ (suffixes_of <$> files))).
Proof.
  destruct (main_optimize_run ∅ files sample)
    as (e & h' & Hrun & _ & _ & _ & Ho & _).
  by rewrite (value_at_run _ _ _ _ Hrun).
Qed.

Lemma merged_values_trimmed (files : list file) (sample : option file)
    (v : string) :
  v ∈ ⋃ (domains_of <$> files) ∪ existing_of sample
      ∪ ⋃ (suffixes_of <$> files) ->
  strip v = v /\ v <> EmptyString.
Proof.
  rewrite !elem_of_union, !elem_of_union_list.
  intros [[(X & [f [-> _]]%list_elem_of_fmap & Hv)|Hv]
         |(X & [f [-> _]]%list_elem_of_fmap & Hv)].
  - destruct (parsed_values_trimmed f v); [set_solver|done].
  - destruct sample as [lines|]; [|set_solver]. simpl in Hv.
    apply elem_of_list_to_set, list_elem_of_omap in Hv
      as (line & _ & (-> & Hne & _)%listed_iff).
    split; [apply strip_strip|done].
  - destruct (parsed_values_trimmed f v); [set_solver|done].
Qed.

(** X5. A second run on the saved output changes nothing: when the entries
    a run keeps are on one line each and none starts with [#], a run on the
    same files with the saved text as the existing list keeps the same
    entries. *)
Theorem rerun_on_saved_output :
  forall (files : list file) (sample : option file) (O : gset string),
    value_at (main_optimize files sample) optimized_domains = Some O ->
    (forall v, v ∈ O -> one_line v) ->
    value_at
      (main_optimize files
         (Some (read_lines (save_domains_text (elements O)))))
      optimized_domains = Some O.
Proof.
  intros files sample O HO Hline.
  rewrite main_optimize_value in HO. injection HO as HO.
  rewrite main_optimize_value. f_equal.
  set (D := ⋃ (domains_of <$> files)) in *.
  set (S := ⋃ (suffixes_of <$> files)) in *.
  assert (Forall persistable (elements O)) as Hpers.
  { apply Forall_forall. intros v Hv%elem_of_elements.
    destruct (merged_values_trimmed files sample v) as [Hs Hne].
    - rewrite <- HO in Hv. by apply optimize_subseteq in Hv.
    - split_and!; [done..|]. by apply Hline. }
  assert (existing_of (Some (read_lines (save_domains_text (elements O)))) = O)
    as ->.
  { simpl. rewrite (read_saved_lines _ Hpers). apply set_eq. intros v.
    by rewrite elem_of_list_to_set, sorted_perm, elem_of_elements. }
  apply set_eq. intros d. rewrite <- HO at 2.
  rewrite !elem_of_optimize, !elem_of_union. rewrite <- HO.
  rewrite elem_of_optimize, !elem_of_union. tauto.
Qed.

Lemma rerun_on_saved_output_witness :
  value_at
    (main_optimize
       [["DOMAIN,mail.example.com" +:+ newline;
         "DOMAIN-SUFFIX,example.com" +:+ newline]]
       (Some (read_lines (save_domains_text
                (elements ({[ "example.com" ]} : gset string))))))
    optimized_domains = Some {[ "example.com" ]}.
Proof.
  apply (rerun_on_saved_output
           [["DOMAIN,mail.example.com" +:+ newline;
             "DOMAIN-SUFFIX,example.com" +:+ newline]] None).
  - vm_compute. reflexivity.
  - intros v ->%elem_of_singleton. by vm_compute.
Defined.

End MergeTool.


(** ** list_to_json_converter: one file, then the merge *)
Section JsonConverter.
Import Py ListToJsonConverter ListToJsonConverterMore Spec Notions.
Local Open Scope outcome_scope.

Lemma startswith_take (s p : string) :
  startswith s p = true -> s = p +:+ drop (len p) s.
Proof.
  intros [q ->]%startswith_iff. by rewrite drop_app_len.
Qed.

Lemma split_max_first (c : ascii) (a b : string) :
  mentions c a = false ->
  split_max c 1 (a +:+ String c b) = [a; b].
Proof.
  induction a as [|x a IH].
  - intros _. rewrite str_app_nil. simpl. rewrite Ascii.eqb_refl.
    by rewrite split_max_zero.
  - intros Hm. simpl in Hm. apply orb_false_iff in Hm as [Hx Ha].
    rewrite str_app_cons.
    change (split_max c 1 (String x (a +:+ String c b)))
      with (if Ascii.eqb x c then EmptyString :: split_max c 0 (a +:+ String c b)
            else cons_field x (split_max c 1 (a +:+ String c b))).
    by rewrite Hx, (IH Ha).
Qed.

Lemma split_no_sep (c : ascii) (s v : string) :
  v ∈ split c s -> mentions c v = false.
Proof.
  revert v. induction s as [|x s IH]; intros v; simpl.
  - by intros ->%list_elem_of_singleton.
  - destruct (Ascii.eqb x c) eqn:Hx.
    + intros [->|Hv]%elem_of_cons; [done|by apply IH].
    + destruct (split c s) as [|w ws] eqn:Hsp; simpl.
      * intros ->%list_elem_of_singleton. simpl. by rewrite Hx.
      * intros [->|Hv]%elem_of_cons.
        -- simpl. rewrite Hx. apply IH. by left.
        -- apply IH. by right.
Qed.

(** The three prefixes of the domain kinds, and how a line that starts
    with one is split. *)
Lemma split_after_prefix (p rest : string) :
  mentions ","%char p = false ->
  split_max ","%char 1 ((p +:+ ",") +:+ rest) = [p; rest].
Proof.
  intros Hp. rewrite str_app_assoc.
  change ("," +:+ rest) with (String ","%char rest).
  by apply split_max_first.
Qed.

Lemma after_split (p line : string) :
  mentions ","%char p = false ->
  startswith line (p +:+ ",") = true ->
  index (split_max ","%char 1 line) 1 = Return (drop (len (p +:+ ",")) line).
Proof.
  intros Hp Hs. rewrite (startswith_take _ _ Hs) at 1.
  by rewrite split_after_prefix.
Qed.

Lemma cidr_fields (line : string) :
  startswith line "IP-CIDR," || startswith line "IP-CIDR6," = true ->
  exists v, split ","%char line !! 1 = Some v.
Proof.
  intros [Hs|Hs]%orb_true_iff; apply startswith_iff in Hs as [q ->];
    rewrite !str_app_cons, str_app_nil; simpl;
    destruct (split ","%char q) as [|w ws] eqn:Hq; simpl; eauto;
    by destruct q; simpl in Hq; try destruct (Ascii.eqb _ _);
       try destruct (split _ _).
Qed.

(** What one line adds to [rules_data]. *)
Lemma converter_parse_line_run (rd : rules_data) (line : string) :
  let l := strip line in
  parse_line rd line =
  Return (RulesData
            (domain rd ++ option_list (after "DOMAIN," l))
            (domain_keyword rd ++ option_list (after "DOMAIN-KEYWORD," l))
            (domain_suffix rd ++ option_list (after "DOMAIN-SUFFIX," l))
            (ip_cidr rd ++ option_list (cidr_of l))).
Proof.
  intros l. unfold parse_line, after, cidr_of. fold l.
  assert (forall rd' : rules_data,
            RulesData (domain rd' ++ []) (domain_keyword rd' ++ [])
                      (domain_suffix rd' ++ []) (ip_cidr rd' ++ []) = rd')
    as Hsame by (intros []; simpl; by rewrite !app_nil_r).
  destruct (startswith l "DOMAIN,") eqn:Hd.
  { rewrite (after_split "DOMAIN" l eq_refl Hd).
    apply startswith_iff in Hd as [q ->].
    rewrite !str_app_cons, str_app_nil. unfold startswith. cbn.
    rewrite ?andb_false_r. cbn. by rewrite !app_nil_r. }
  destruct (startswith l "DOMAIN-KEYWORD,") eqn:Hk.
  { rewrite (after_split "DOMAIN-KEYWORD" l eq_refl Hk).
    apply startswith_iff in Hk as [q ->].
    rewrite !str_app_cons, str_app_nil. unfold startswith. cbn.
    rewrite ?andb_false_r. cbn. by rewrite !app_nil_r. }
  destruct (startswith l "DOMAIN-SUFFIX,") eqn:Hs.
  { rewrite (after_split "DOMAIN-SUFFIX" l eq_refl Hs).
    apply startswith_iff in Hs as [q ->].
    rewrite !str_app_cons, str_app_nil. unfold startswith. cbn.
    rewrite ?andb_false_r. cbn. by rewrite !app_nil_r. }
  destruct (startswith l "IP-CIDR," || startswith l "IP-CIDR6,") eqn:Hi.
  { destruct (cidr_fields l Hi) as [v Hv]. unfold index. rewrite Hv.
    assert (negb (truthy l) || startswith l "#" = false) as ->.
    { apply orb_true_iff in Hi as [Hi|Hi];
        apply startswith_iff in Hi as [q ->]; done. }
    simpl. by rewrite !app_nil_r. }
  simpl. rewrite Hsame. by destruct (negb (truthy l) || startswith l "#").
Qed.

Lemma converter_loop_run (lines : list string) (rd : rules_data) :
  for_state lines rd parse_line =
  Return (RulesData
            (domain rd ++ omap (fun line => after "DOMAIN," (strip line)) lines)
            (domain_keyword rd ++
               omap (fun line => after "DOMAIN-KEYWORD," (strip line)) lines)
            (domain_suffix rd ++
               omap (fun line => after "DOMAIN-SUFFIX," (strip line)) lines)
            (ip_cidr rd ++ omap (fun line => cidr_of (strip line)) lines)).
Proof.
  revert rd. induction lines as [|line lines IH]; intros rd.
  - simpl. rewrite !app_nil_r. by destruct rd.
  - change (for_state (line :: lines) rd parse_line)
      with (and_then (parse_line rd line)
              (fun rd' => for_state lines rd' parse_line)).
    rewrite converter_parse_line_run. simpl and_then. rewrite IH. simpl.
    f_equal. f_equal; rewrite <- app_assoc; f_equal;
      by match goal with |- context [option_list ?o] => destruct o end.
Qed.


Lemma final_rules_values (rd : rules_data) :
  let got key := concat ((fun rule : Json.rule => default [] (rule !! key))
                           <$> final_rules rd) in
  got "domain" = domain rd /\ got "domain_keyword" = domain_keyword rd /\
  got "domain_suffix" = domain_suffix rd /\ got "ip_cidr" = ip_cidr rd.
Proof.
  unfold final_rules.
  repeat case_bool_decide; csimpl;
    rewrite ?lookup_singleton_eq, ?lookup_singleton_ne by done; csimpl;
    rewrite ?app_nil_r; split_and!; congruence.
Qed.




Lemma elem_of_concat {A : Type} (x : A) (ls : list (list A)) :
  x ∈ concat ls <-> exists l, x ∈ l /\ l ∈ ls.
Proof.
  induction ls as [|l ls IH]; simpl.
  - split; [by intros ?%elem_of_nil|]. by intros (l & _ & ?%elem_of_nil).
  - rewrite elem_of_app, IH. split.
    + intros [Hx|(l' & Hx & Hl)]; [exists l|exists l'];
        (split; [done|]); [by left|by right].
    + intros (l' & Hx & [->|Hl]%elem_of_cons); [by left|right; eauto].
Qed.




(** X9. Merging the one document [parse_list_file] wrote for a file gives
    back the values of that file, each once: nothing is lost and nothing
    invented on the way through the JSON document. *)
Theorem merge_of_one_converted_file :
  forall lines : list string,
    exists (rd : rules_data) (doc : Json.document),
      for_state lines no_rules parse_line = Return rd /\
      parse_list_file lines = Return doc /\
      let md := merged_data [Some doc] in
      duplicate_free md /\
      (forall x, x ∈ domain md <-> x ∈ domain rd) /\
      (forall x, x ∈ domain_keyword md <-> x ∈ domain_keyword rd) /\
      (forall x, x ∈ domain_suffix md <-> x ∈ domain_suffix rd) /\
      (forall x, x ∈ ip_cidr md <-> x ∈ ip_cidr rd).
Proof.
  intros lines. eexists _, _. split; [apply converter_loop_run|].
  split; [unfold parse_list_file; by rewrite converter_loop_run|].
  split; [apply merged_data_duplicate_free|].
  rewrite merged_data_fields. simpl. rewrite !app_nil_r.
  match goal with |- context [final_rules ?rd] =>
    destruct (final_rules_values rd) as (-> & -> & -> & ->) end.
  split_and!; intros x; apply list_set_elem_of.
Qed.

End JsonConverter.

(** ** list_to_json: the counters and the values *)
Section JsonSingle.
Import Py ListToJson Spec Notions.
Local Open Scope outcome_scope.




End JsonSingle.


(** ** list_to_yaml_converter: the rules parsed *)
Section YamlParse.
Import Py ListToYaml Spec Notions.
Local Open Scope outcome_scope.

Lemma mentions_lstrip (c : ascii) (s : string) :
  mentions c s = false -> mentions c (lstrip s) = false.
Proof.
  induction s as [|x s IH]; [done|]. simpl.
  intros [Hx Hs]%orb_false_iff. destruct (isspace x); [by apply IH|].
  simpl. by rewrite Hx, Hs.
Qed.

Lemma mentions_rstrip (c : ascii) (s : string) :
  mentions c s = false -> mentions c (rstrip s) = false.
Proof.
  induction s as [|x s IH]; [done|]. simpl.
  intros [Hx Hs]%orb_false_iff. specialize (IH Hs).
  destruct (rstrip s) as [|y r].
  - destruct (isspace x); [done|]. simpl. by rewrite Hx.
  - simpl in *. by rewrite Hx, IH.
Qed.

Lemma mentions_strip (c : ascii) (s : string) :
  mentions c s = false -> mentions c (strip s) = false.
Proof. intros Hs. by apply mentions_rstrip, mentions_lstrip. Qed.

(** What [yaml_rule] gives is a supported kind and a trimmed value, both
    without a comma. *)
Lemma yaml_rule_Some (line t v : string) :
  yaml_rule line = Some (t, v) ->
  t ∈ SUPPORTED_RULE_TYPES /\ (t ∉ UNSUPPORTED_RULE_TYPES) /\
  strip v = v /\ mentions ","%char v = false /\ mentions ","%char t = false /\
  candidate line = true.
Proof.
  unfold yaml_rule, candidate, has_fields.
  destruct (startswith (strip line) "#"); [done|].
  destruct (truthy (strip line)); [|done]. simpl.
  destruct (split ","%char (strip line)) as [|p0 [|p1 rest]] eqn:Hsp;
    try done.
  case_bool_decide as Hu; [done|]. case_bool_decide as Hs; [|done].
  intros [= <- <-]. split_and!; try done.
  - apply strip_strip.
  - apply mentions_strip, (split_no_sep _ (strip line)).
    rewrite Hsp. apply elem_of_cons. right. apply elem_of_cons. by left.
  - apply mentions_strip, (split_no_sep _ (strip line)).
    rewrite Hsp. apply elem_of_cons. by left.
Qed.

Lemma kind_of_rule (t v : string) :
  mentions ","%char t = false -> kind_of (t +:+ "," +:+ v) = Some t.
Proof.
  intros Ht. unfold kind_of.
  change ("," +:+ v) with (String ","%char v). by rewrite split_field.
Qed.

Lemma yaml_stats_count (L : list (string * string)) (m : gmap string nat)
    (t : string) :
  default 0
    ((fold_left (fun (stats : gmap string nat) (r : string * string) =>
                   <[r.1 := default 0 (stats !! r.1) + 1]> stats) L m) !! t)
  = default 0 (m !! t) + length (filter (fun r => r.1 = t) L).
Proof.
  revert m. induction L as [|[t' v'] L IH]; intros m; simpl; [lia|].
  rewrite IH, filter_cons. simpl.
  destruct (decide (t' = t)) as [->|Hne].
  - rewrite lookup_insert_eq. simpl. lia.
  - by rewrite lookup_insert_ne.
Qed.

Lemma yaml_stats_positive (L : list (string * string)) (m : gmap string nat)
    (t : string) (n : nat) :
  (fold_left (fun (stats : gmap string nat) (r : string * string) =>
                <[r.1 := default 0 (stats !! r.1) + 1]> stats) L m) !! t
    = Some n ->
  m !! t = Some n \/ (0 < n /\ exists v, (t, v) ∈ L).
Proof.
  revert m. induction L as [|[t' v'] L IH]; intros m; simpl; [by left|].
  intros [Hm|(Hn & v & Hv)]%IH.
  - destruct (decide (t' = t)) as [->|Hne].
    + rewrite lookup_insert_eq in Hm. injection Hm as <-. right.
      split; [lia|]. exists v'. by left.
    + rewrite lookup_insert_ne in Hm by done. by left.
  - right. split; [done|]. exists v. by right.
Qed.

(** X11. The YAML converter never raises when it parses.  Every rule it
    keeps is a supported kind, a comma and a trimmed value without comma;
    no rule has an unsupported kind.  For each kind, the count it reports
    is the number of rules of that kind, and a kind is counted only when
    it has a rule. *)
Theorem yaml_rules_well_formed :
  forall lines : list string,
    exists st : state,
      parse_lines lines = Return st /\
      (forall r, r ∈ rules st ->
         exists t v, r = t +:+ "," +:+ v /\
                     t ∈ SUPPORTED_RULE_TYPES /\
                     (t ∉ UNSUPPORTED_RULE_TYPES) /\
                     strip v = v /\ mentions ","%char v = false) /\
      (forall t, default 0 (stats st !! t)
                 = length (filter (fun r => kind_of r = Some t) (rules st))) /\
      (forall t n, stats st !! t = Some n ->
                   0 < n /\ t ∈ SUPPORTED_RULE_TYPES).
Proof.
  intros lines.
  destruct (yaml_parse_lines_run lines) as (st & Hrun & Hr & Hs).
  exists st. split; [done|]. rewrite Hr, Hs.
  unfold yaml_rules_of, yaml_stats_of.
  assert (forall t v, (t, v) ∈ omap yaml_rule lines ->
            t ∈ SUPPORTED_RULE_TYPES /\ (t ∉ UNSUPPORTED_RULE_TYPES) /\
            strip v = v /\ mentions ","%char v = false /\
            mentions ","%char t = false) as HL.
  { intros t v (line & _ & Hl)%list_elem_of_omap.
    apply yaml_rule_Some in Hl. tauto. }
  split_and!.
  - intros r ([t v] & -> & Htv)%list_elem_of_fmap.
    destruct (HL t v Htv) as (? & ? & ? & ? & _). by exists t, v.
  - intros t. rewrite yaml_stats_count, lookup_empty. simpl.
    induction (omap yaml_rule lines) as [|[t' v'] L IH]; [done|].
    rewrite fmap_cons, !filter_cons. simpl.
    destruct (HL t' v') as (_ & _ & _ & _ & Ht'); [by left|].
    rewrite (kind_of_rule t' v' Ht').
    assert (forall t0 v0, (t0, v0) ∈ L ->
              t0 ∈ SUPPORTED_RULE_TYPES /\ (t0 ∉ UNSUPPORTED_RULE_TYPES) /\
              strip v0 = v0 /\ mentions ","%char v0 = false /\
              mentions ","%char t0 = false) as HL'.
    { intros t0 v0 Hin. apply HL. by right. }
    specialize (IH HL').
    destruct (decide (t' = t)) as [->|Hne].
    + rewrite decide_True by done. simpl. by rewrite IH.
    + rewrite decide_False by congruence. done.
  - intros t n [Hm|(Hn & v & Hv)]%yaml_stats_positive; [done|].
    split; [done|]. by destruct (HL t v Hv).
Qed.




End YamlParse.

(** ** list_to_yaml_converter: merging *)
Section YamlMerge.
Import Py ListToYaml ListToYamlMore Spec Notions MergeNotions.
Local Open Scope outcome_scope.

Lemma keep_first_elem_of (xs : list string) :
  forall (seen : gset string) (x : string),
    x ∈ keep_first seen xs <-> x ∈ xs /\ x ∉ seen.
Proof.
  induction xs as [|y xs IH]; intros seen x; simpl.
  - set_solver.
  - destruct (decide (y ∈ seen)).
    + rewrite IH. set_solver.
    + rewrite elem_of_cons, IH. destruct (decide (x = y)); set_solver.
Qed.

Lemma keep_first_NoDup (xs : list string) :
  forall seen : gset string, NoDup (keep_first seen xs).
Proof.
  induction xs as [|y xs IH]; intros seen; simpl; [constructor|].
  destruct (decide (y ∈ seen)); [apply IH|].
  constructor; [|apply IH]. rewrite keep_first_elem_of. set_solver.
Qed.

Lemma keep_first_app (xs ys : list string) :
  forall seen : gset string,
    keep_first seen (xs ++ ys)
    = keep_first seen xs ++ keep_first (list_to_set xs ∪ seen) ys.
Proof.
  induction xs as [|y xs IH]; intros seen; simpl.
  - by rewrite union_empty_l_L.
  - destruct (decide (y ∈ seen)).
    + rewrite IH. do 2 f_equal. set_solver.
    + simpl. rewrite IH. do 3 f_equal. set_solver.
Qed.

Lemma keep_first_id (xs : list string) :
  forall seen : gset string,
    NoDup xs -> (forall x, x ∈ xs -> x ∉ seen) -> keep_first seen xs = xs.
Proof.
  induction xs as [|y xs IH]; intros seen Hnd Hout; simpl; [done|].
  apply NoDup_cons in Hnd as [Hy Hnd].
  rewrite decide_False by (apply Hout; by left).
  f_equal. apply IH; [done|]. intros x Hx.
  assert (x <> y) by congruence.
  assert (x ∉ seen) by (apply Hout; by right). set_solver.
Qed.

Lemma kind_count_app (kind : string) (xs ys : list string) :
  kind_count kind (xs ++ ys) = kind_count kind xs + kind_count kind ys.
Proof. unfold kind_count. by rewrite filter_app, length_app. Qed.

Lemma absorbs_refl (m : merging) : absorbs m m [].
Proof.
  unfold absorbs. simpl. rewrite app_nil_r.
  split_and!; [done|set_solver|lia| |by left].
  intros kind. unfold kind_count. simpl. lia.
Qed.

Lemma absorbs_trans (m1 m2 m3 : merging) (xs ys : list string) :
  absorbs m1 m2 xs -> absorbs m2 m3 ys -> absorbs m1 m3 (xs ++ ys).
Proof.
  unfold absorbs. simpl.
  intros (Ha1 & Hs1 & Ht1 & Hc1 & Hp1) (Ha2 & Hs2 & Ht2 & Hc2 & Hp2).
  rewrite keep_first_app, <- Hs1.
  split_and!.
  - by rewrite Ha2, Ha1, app_assoc.
  - rewrite Hs2, Hs1, list_to_set_app_L. set_solver.
  - rewrite Ht2, Ht1, length_app. lia.
  - intros kind. rewrite Hc2, Hc1, kind_count_app. lia.
  - intros kind Hk. rewrite kind_count_app.
    destruct (Hp2 kind Hk) as [Hk2|Hk2]; [|right; lia].
    destruct (Hp1 kind Hk2) as [Hk1|Hk1]; [by left|right; lia].
Qed.

Lemma hash_not_dash (s : string) :
  startswith s "#" = true -> startswith s "- " = false.
Proof.
  intros (r & ->)%startswith_iff. rewrite str_app_cons, str_app_nil.
  unfold startswith. simpl. apply andb_false_r.
Qed.

Lemma split_head (c : ascii) (s : string) :
  exists h t, split c s = h :: t.
Proof.
  induction s as [|x s (h & t & IH)]; simpl; [by eexists _, _|].
  destruct (Ascii.eqb x c); [by eexists _, _|].
  rewrite IH. by eexists _, _.
Qed.

Lemma merge_line_cases (m : merging) (line : string) :
  merge_line m line =
  Return
    match payload_rule line with
    | Some rule =>
        if decide (rule ∈ seen_rules m) then m
        else
          let rule_type := default EmptyString (split ","%char rule !! 0) in
          Merging (merged_lines m) (total_rules m + 1)
            (<[rule_type := default 0 (rule_stats m !! rule_type) + 1]>
               (rule_stats m))
            (all_rules m ++ [rule]) ({[ rule ]} ∪ seen_rules m)
    | None => m
    end.
Proof.
  unfold merge_line, payload_rule. cbv zeta.
  set (stripped := strip line). set (rule := strip (drop 2 stripped)).
  clearbody rule. clearbody stripped.
  destruct (startswith stripped "#") eqn:Hh.
  { by rewrite (hash_not_dash _ Hh). }
  destruct (String.eqb stripped "payload:") eqn:Hp.
  { apply String.eqb_eq in Hp. by subst stripped. }
  rewrite orb_false_l.
  destruct (startswith stripped "- "); [|done].
  destruct (truthy rule); [|done]. rewrite andb_true_l.
  destruct (decide (rule ∈ seen_rules m)) as [Hseen|Hseen].
  { by rewrite bool_decide_eq_true_2. }
  rewrite bool_decide_eq_false_2 by done.
  destruct (split_head ","%char rule) as (h & t & Hsp).
  unfold index. by rewrite Hsp.
Qed.

Lemma merge_line_run (m : merging) (line : string) :
  exists m',
    merge_line m line = Return m' /\
    merged_lines m' = merged_lines m /\
    absorbs m m' (omap payload_rule [line]).
Proof.
  rewrite merge_line_cases. eexists. split; [done|]. simpl.
  destruct (payload_rule line) as [rule|]; [|split; [done|apply absorbs_refl]].
  destruct (decide (rule ∈ seen_rules m)) as [Hseen|Hseen].
  { split; [done|]. unfold absorbs. simpl.
    rewrite decide_True by done. rewrite app_nil_r.
    split_and!; [done|set_solver|simpl; lia| |by left].
    intros kind. unfold kind_count. simpl. lia. }
  split; [done|]. unfold absorbs. simpl.
  rewrite decide_False by done.
  destruct (split_head ","%char rule) as (h & t & Hsp).
  split_and!; [done|set_solver|simpl; lia| |].
  - intros kind. unfold kind_count. rewrite filter_cons, Hsp. simpl.
    destruct (decide (h = kind)) as [->|Hne].
    + rewrite lookup_insert_eq, decide_True by done. simpl. lia.
    + rewrite lookup_insert_ne by done.
      rewrite decide_False by congruence. simpl. lia.
  - intros kind Hk. unfold kind_count. rewrite filter_cons, Hsp. simpl.
    rewrite Hsp in Hk. simpl in Hk.
    destruct (decide (h = kind)) as [->|Hne].
    + right. rewrite decide_True by done. simpl. lia.
    + left. by rewrite lookup_insert_ne in Hk.
Qed.

Lemma omap_cons_app {A B : Type} (f : A -> option B) (x : A) (l : list A) :
  omap f (x :: l) = omap f [x] ++ omap f l.
Proof. simpl. by destruct (f x). Qed.

Lemma merge_lines_run (lines : list string) :
  forall m : merging,
    exists m',
      for_state lines m merge_line = Return m' /\
      merged_lines m' = merged_lines m /\
      absorbs m m' (omap payload_rule lines).
Proof.
  induction lines as [|line lines IH]; intros m.
  - exists m. split_and!; try done. apply absorbs_refl.
  - destruct (merge_line_run m line) as (m1 & Hrun1 & Hl1 & Ha1).
    destruct (IH m1) as (m2 & Hrun2 & Hl2 & Ha2).
    exists m2. split_and!.
    + change (and_then (merge_line m line)
                (fun m' => for_state lines m' merge_line) = Return m2).
      by rewrite Hrun1.
    + congruence.
    + rewrite omap_cons_app. by eapply absorbs_trans.
Qed.

Lemma merge_content_run (m : merging) (named : string * string) :
  exists m',
    merge_content m named = Return m' /\
    merged_lines m' = merged_lines m ++ ["# SOURCE: " +:+ named.1] /\
    absorbs m m' (omap payload_rule (split LF named.2)).
Proof.
  destruct named as [filename content]. unfold merge_content.
  destruct (merge_lines_run (split LF content)
              (Merging (merged_lines m ++ ["# SOURCE: " +:+ filename])
                 (total_rules m) (rule_stats m) (all_rules m)
                 (seen_rules m)))
    as (m' & Hrun & Hl & Ha).
  exists m'. split_and!; try done.
Qed.

Lemma merge_contents_run (yaml_contents : list (string * string)) :
  forall m : merging,
    exists m',
      for_state yaml_contents m merge_content = Return m' /\
      merged_lines m'
      = merged_lines m
        ++ ((fun named : string * string => "# SOURCE: " +:+ named.1)
              <$> yaml_contents) /\
      absorbs m m' (omap payload_rule (lines_of yaml_contents)).
Proof.
  induction yaml_contents as [|named rest IH]; intros m.
  - exists m. rewrite app_nil_r. split_and!; try done. apply absorbs_refl.
  - destruct (merge_content_run m named) as (m1 & Hrun1 & Hl1 & Ha1).
    destruct (IH m1) as (m2 & Hrun2 & Hl2 & Ha2).
    exists m2. split_and!.
    + change (and_then (merge_content m named)
                (fun m' => for_state rest m' merge_content) = Return m2).
      by rewrite Hrun1.
    + rewrite Hl2, Hl1. simpl. by rewrite <- app_assoc.
    + unfold lines_of. rewrite fmap_cons. simpl. rewrite omap_app.
      by eapply absorbs_trans.
Qed.


Lemma split_none (c : ascii) (s : string) :
  mentions c s = false -> split c s = [s].
Proof.
  induction s as [|x s IH]; simpl; [done|].
  intros [Hx Hs]%orb_false_iff. by rewrite Hx, (IH Hs).
Qed.

Lemma split_join (lines : list string) :
  lines <> [] -> Forall (fun l => mentions LF l = false) lines ->
  split LF (join newline lines) = lines.
Proof.
  induction lines as [|x [|y rest] IH]; intros Hne Hall; [done| |].
  - apply Forall_cons in Hall as [Hx _]. simpl. by apply split_none.
  - apply Forall_cons in Hall as [Hx Hall].
    change (join newline (x :: y :: rest))
      with (x +:+ newline +:+ join newline (y :: rest)).
    unfold newline at 1. rewrite str_app_cons, str_app_nil.
    rewrite split_field by done. f_equal. by apply IH.
Qed.

Lemma fold_left_snoc {A : Type} (step : list string -> A -> list string)
    (h : A -> list string) (xs : list A) :
  (forall acc x, step acc x = acc ++ h x) ->
  forall init, fold_left step xs init = init ++ concat (h <$> xs).
Proof.
  intros Hstep. induction xs as [|x xs IH]; intros init; simpl.
  - by rewrite app_nil_r.
  - by rewrite IH, Hstep, <- app_assoc.
Qed.

Lemma concat_singletons {A : Type} (f : A -> string) (xs : list A) :
  concat ((fun x => [f x]) <$> xs) = f <$> xs.
Proof. induction xs as [|x xs IH]; [done|]. simpl. by f_equal. Qed.

Lemma omap_none {A B : Type} (f : A -> option B) (l : list A) :
  Forall (fun x => f x = None) l -> omap f l = [].
Proof.
  induction 1 as [|x l Hx _ IH]; simpl; [done|]. by rewrite Hx.
Qed.

Lemma digit_char_not_LF (k : nat) :
  k < 10 -> Ascii.eqb (ascii_of_nat (48 + k)) LF = false.
Proof.
  intros Hk. do 10 (destruct k as [|k]; [by vm_compute|]). lia.
Qed.

Lemma str_digits_mentions (fuel : nat) :
  forall (n : nat) (acc : string),
    mentions LF acc = false -> mentions LF (str_digits fuel n acc) = false.
Proof.
  induction fuel as [|fuel IH]; intros n acc Hacc; [done|].
  assert (mentions LF (String (ascii_of_nat (48 + n mod 10)) acc) = false)
    as Hacc'.
  { change (Ascii.eqb (ascii_of_nat (48 + n mod 10)) LF || mentions LF acc
            = false).
    rewrite Hacc, digit_char_not_LF; [done|].
    apply Nat.mod_upper_bound. lia. }
  change (mentions LF
            (if n / 10 =? 0
             then String (ascii_of_nat (48 + n mod 10)) acc
             else str_digits fuel (n / 10)
                    (String (ascii_of_nat (48 + n mod 10)) acc)) = false).
  destruct (n / 10 =? 0); [done|]. by apply IH.
Qed.

Lemma str_nat_mentions (n : nat) : mentions LF (str_nat n) = false.
Proof. by apply str_digits_mentions. Qed.

Lemma hash_line (l : string) :
  startswith l "#" = true -> payload_rule l = None.
Proof.
  intros (r & ->)%startswith_iff. rewrite str_app_cons, str_app_nil.
  unfold payload_rule, strip.
  change (lstrip (String "#" r)) with (String "#"%char r).
  rewrite rstrip_cons by done.
  by rewrite (hash_not_dash (String "#" (rstrip r))).
Qed.

(** A line that starts with [#] and holds no line feed stays one line of
    the text and gives the merger no rule. *)
Lemma hash_header (p x : string) :
  startswith p "#" = true -> mentions LF p = false ->
  mentions LF x = false ->
  mentions LF (p +:+ x) = false /\ payload_rule (p +:+ x) = None.
Proof.
  intros Hp Hlf Hx. split.
  - by rewrite mentions_app, Hlf, Hx.
  - apply hash_line. apply startswith_iff in Hp as (q & ->).
    apply startswith_iff. exists (q +:+ x). by rewrite str_app_assoc.
Qed.

Lemma rstrip_fixed (r : string) : strip r = r -> rstrip r = r.
Proof. intros <-. apply rstrip_rstrip. Qed.

Lemma payload_line (r : string) :
  strip r = r -> r <> EmptyString -> payload_rule ("  - " +:+ r) = Some r.
Proof.
  intros Hs Hne. pose proof (rstrip_fixed r Hs) as Hr.
  assert (strip ("  - " +:+ r) = "- " +:+ r) as Hst.
  { rewrite !str_app_cons, str_app_nil. unfold strip.
    change (lstrip (String " " (String " " (String "-" (String " " r)))))
      with (String "-"%char (String " "%char r)).
    rewrite rstrip_cons by done. f_equal.
    change (rstrip (String " " r))
      with (match rstrip r with
            | EmptyString =>
                if isspace " " then EmptyString
                else String " "%char EmptyString
            | r' => String " "%char r'
            end).
    rewrite Hr. by destruct r. }
  unfold payload_rule. rewrite Hst.
  rewrite (proj2 (startswith_iff ("- " +:+ r) "- ")) by by exists r.
  rewrite !str_app_cons, str_app_nil.
  change (drop 2 (String "-" (String " " r))) with r.
  rewrite Hs. by destruct r.
Qed.

Lemma read_back_rules (rules : list string) :
  Forall (fun r => mentions LF r = false /\ strip r = r /\ r <> EmptyString)
         rules ->
  omap payload_rule ((fun r => "  - " +:+ r) <$> rules) = rules.
Proof.
  induction 1 as [|r rules (Hlf & Hs & Hne) _ IH]; [done|].
  rewrite fmap_cons, omap_cons_app, IH.
  change (omap payload_rule ["  - " +:+ r])
    with (match payload_rule ("  - " +:+ r) with
          | Some y => [y]
          | None => []
          end).
  by rewrite payload_line.
Qed.

(** The payload of a text is read back: the lines before the payload give
    no rule, and each payload line gives its rule. *)
Lemma read_back (hdr rules : list string) :
  Forall (fun l => mentions LF l = false /\ payload_rule l = None) hdr ->
  Forall (fun r => mentions LF r = false /\ strip r = r /\ r <> EmptyString)
         rules ->
  omap payload_rule
    (split LF
       (join newline
          (hdr ++ "payload:" :: ((fun r => "  - " +:+ r) <$> rules))))
  = rules.
Proof.
  intros Hh Hr. rewrite split_join.
  - rewrite omap_app, omap_none by (eapply Forall_impl; [exact Hh|]; by intros ? [? ?]).
    rewrite omap_cons_app, read_back_rules by done. done.
  - by destruct hdr.
  - apply Forall_app. split; [eapply Forall_impl; [exact Hh|]; by intros ? [? ?]|].
    apply Forall_cons. split; [done|].
    apply Forall_fmap. eapply Forall_impl; [exact Hr|].
    intros r (Hlf & _). simpl. by rewrite mentions_app, Hlf.
Qed.

Lemma merge_yaml_files_run (yaml_contents : list (string * string)) :
  exists m : merging,
    merge_yaml_files yaml_contents
    = Return
        (join newline
           (([ "# NAME: Merged Proxy DNS Rules";
               "# AUTHOR: Auto-generated";
               "# TOTAL FILES: " +:+ str_nat (length yaml_contents) ]
             ++ ((fun named : string * string => "# SOURCE: " +:+ named.1)
                   <$> yaml_contents)
             ++ ["#"; "# Rule Statistics:"]
             ++ ((fun item : string * nat =>
                    "# " +:+ item.1 +:+ ": " +:+ str_nat item.2)
                   <$> sorted_items (rule_stats m))
             ++ ["# TOTAL: " +:+ str_nat (total_rules m); "#"])
            ++ "payload:" :: ((fun r => "  - " +:+ r) <$> all_rules m)),
         m) /\
    all_rules m = keep_first ∅ (omap payload_rule (lines_of yaml_contents)) /\
    total_rules m = length (all_rules m) /\
    (forall kind,
       default 0 (rule_stats m !! kind) = kind_count kind (all_rules m)) /\
    (forall kind,
       is_Some (rule_stats m !! kind) -> 0 < kind_count kind (all_rules m)).
Proof.
  unfold merge_yaml_files.
  destruct (merge_contents_run yaml_contents
              (Merging [ "# NAME: Merged Proxy DNS Rules";
                         "# AUTHOR: Auto-generated";
                         "# TOTAL FILES: "
                           +:+ str_nat (length yaml_contents) ]
                       0 ∅ [] ∅))
    as (m & Hrun & Hl & Ha & Hs & Ht & Hc & Hp).
  rewrite Hrun. cbn [and_then]. cbn [merged_lines all_rules total_rules
    rule_stats seen_rules] in Hl, Ha, Hs, Ht, Hc, Hp.
  rewrite app_nil_l in Ha. exists m. split_and!.
  - do 2 f_equal.
    rewrite (fold_left_snoc _ (fun r => ["  - " +:+ r])) by done.
    rewrite (fold_left_snoc _
               (fun item : string * nat =>
                  ["# " +:+ item.1 +:+ ": " +:+ str_nat item.2]))
      by (by intros acc [a b]).
    rewrite !concat_singletons, Hl, <- !app_assoc. reflexivity.
  - done.
  - by rewrite Ht, Ha.
  - intros kind. by rewrite Hc, lookup_empty, Ha.
  - intros kind Hk. destruct (Hp kind Hk) as [Hk'|Hk'].
    + rewrite lookup_empty in Hk'. by destruct Hk'.
    + by rewrite Ha.
Qed.

Lemma mentions_drop (c : ascii) (n : nat) :
  forall s : string, mentions c s = false -> mentions c (drop n s) = false.
Proof.
  induction n as [|n IH]; intros s Hs; [done|].
  destruct s as [|x s]; [done|]. simpl.
  apply orb_false_iff in Hs as [_ Hs]. by apply IH.
Qed.

Lemma split_mentions_other (c d : ascii) (s : string) :
  mentions d s = false ->
  forall x, x ∈ split c s -> mentions d x = false.
Proof.
  induction s as [|y s IH]; simpl.
  - intros _ x Hx. apply list_elem_of_singleton in Hx. by subst.
  - intros [Hy Hs]%orb_false_iff x.
    destruct (Ascii.eqb y c).
    + intros [->|Hx]%elem_of_cons; [done|]. by apply IH.
    + destruct (split c s) as [|w ws] eqn:Hsp; simpl.
      * intros ->%list_elem_of_singleton. simpl. by rewrite Hy.
      * intros [->|Hx]%elem_of_cons.
        -- simpl. rewrite Hy. simpl. apply IH; [done|]. by left.
        -- apply IH; [done|]. by right.
Qed.

Lemma payload_rule_clean (line rule : string) :
  payload_rule line = Some rule ->
  strip rule = rule /\ rule <> EmptyString /\
  (mentions LF line = false -> mentions LF rule = false).
Proof.
  unfold payload_rule. cbv zeta.
  destruct (startswith (strip line) "- "); [|done].
  assert (mentions LF line = false ->
          mentions LF (strip (drop 2 (strip line))) = false) as Hlf
    by (intros Hlf; by apply mentions_strip, mentions_drop, mentions_strip).
  assert (strip (strip (drop 2 (strip line))) = strip (drop 2 (strip line)))
    as Hs by apply strip_strip.
  revert Hlf Hs. generalize (strip (drop 2 (strip line))). intros r Hlf Hs.
  destruct r as [|c r]; [done|]. by intros [= <-].
Qed.

Lemma kind_count_pos (kind : string) (rules : list string) :
  0 < kind_count kind rules ->
  exists rule, rule ∈ rules /\ split ","%char rule !! 0 = Some kind.
Proof.
  unfold kind_count. intros Hpos.
  destruct (filter (fun rule => split ","%char rule !! 0 = Some kind) rules)
    as [|rule l] eqn:Hf; [simpl in Hpos; lia|].
  assert (rule ∈ filter (fun rule => split ","%char rule !! 0 = Some kind)
                     rules) as Hin by (rewrite Hf; by left).
  apply list_elem_of_filter in Hin as [Hk Hin]. by exists rule.
Qed.

(** X15. The merged text can be read back.  When no file name holds a
    line feed, merging the merged text alone gives the same rules in the
    same order, the same total and the same counts per kind. *)
Theorem merged_text_read_back :
  forall (yaml_contents : list (string * string)) (name : string),
    Forall (fun named : string * string => mentions LF named.1 = false)
           yaml_contents ->
    exists (text : string) (m : merging) (text' : string) (m' : merging),
      merge_yaml_files yaml_contents = Return (text, m) /\
      merge_yaml_files [(name, text)] = Return (text', m') /\
      all_rules m' = all_rules m /\
      total_rules m' = total_rules m /\
      rule_stats m' = rule_stats m.
Proof.
  intros yaml_contents name Hnames.
  destruct (merge_yaml_files_run yaml_contents)
    as (m & Hrun & Ha & Ht & Hc & Hp).
  match type of Hrun with _ = Return (?t, _) => set (text := t) in * end.
  destruct (merge_yaml_files_run [(name, text)])
    as (m' & Hrun' & Ha' & Ht' & Hc' & Hp').
  assert (Forall (fun r => mentions LF r = false /\ strip r = r /\
                           r <> EmptyString) (all_rules m)) as Hclean.
  { apply Forall_forall. intros r Hr.
    rewrite Ha in Hr. apply keep_first_elem_of in Hr as [Hr _].
    apply list_elem_of_omap in Hr as (line & Hline & Hr).
    apply payload_rule_clean in Hr as (Hs & Hne & Hlf).
    split_and!; try done. apply Hlf.
    unfold lines_of in Hline. apply elem_of_concat in Hline
      as (ls & Hline & Hls).
    apply list_elem_of_fmap in Hls as (named & -> & _).
    by apply (split_no_sep LF named.2). }
  assert (all_rules m' = all_rules m) as Hsame.
  { rewrite Ha'. change (lines_of [(name, text)]) with (split LF text ++ []).
    rewrite app_nil_r. unfold text. rewrite read_back.
    - apply keep_first_id; [|set_solver].
      rewrite Ha. apply keep_first_NoDup.
    - repeat (apply Forall_app; split).
      + repeat (apply Forall_cons; split); [by vm_compute|by vm_compute| |done].
        apply hash_header; [done|done|apply str_nat_mentions].
      + apply Forall_fmap. eapply Forall_impl; [exact Hnames|].
        intros named Hn. by apply hash_header.
      + repeat (apply Forall_cons; split); [by vm_compute|by vm_compute|done].
      + apply Forall_fmap. apply Forall_forall. intros [kind count] Hin.
        cbn [fst snd].
        apply (hash_header "# " (kind +:+ ": " +:+ str_nat count));
          [done|done|].
        rewrite !mentions_app, str_nat_mentions.
        change (mentions LF ": ") with false. rewrite !orb_false_r.
        unfold sorted_items in Hin.
        apply list_elem_of_fmap in Hin as (k & [= <- _] & Hk).
        rewrite sorted_perm in Hk.
        apply list_elem_of_fmap in Hk as ([k' v] & -> & Hkv).
        apply elem_of_map_to_list in Hkv. simpl.
        destruct (kind_count_pos k' (all_rules m)) as (rule & Hrule & Hkind);
          [apply Hp; by eexists|].
        apply (split_mentions_other ","%char LF rule).
        * by apply (proj1 (Forall_forall _ _) Hclean).
        * by eapply list_elem_of_lookup_2.
      + repeat (apply Forall_cons; split); [|by vm_compute|done].
        apply hash_header; [done|done|apply str_nat_mentions].
    - done. }
  exists text, m. eexists _, m'. split_and!; try done.
  - by rewrite Ht', Ht, Hsame.
  - apply map_eq. intros kind.
    pose proof (Hc kind) as H1. pose proof (Hc' kind) as H2.
    pose proof (Hp kind) as H3. pose proof (Hp' kind) as H4.
    rewrite Hsame in H2, H4.
    destruct (rule_stats m !! kind) as [n|], (rule_stats m' !! kind) as [n'|];
      simpl in *.
    + congruence.
    + assert (0 < kind_count kind (all_rules m)) by (apply H3; by eexists).
      lia.
    + assert (0 < kind_count kind (all_rules m)) by (apply H4; by eexists).
      lia.
    + done.
Qed.

Lemma merged_text_read_back_witness :
  exists (text : string) (m : merging) (text' : string) (m' : merging),
    merge_yaml_files
      [("a.yaml", "payload:" +:+ newline +:+ "  - DOMAIN,a.com");
       ("b.yaml", "  - DOMAIN-SUFFIX,b.org" +:+ newline
                  +:+ "  - DOMAIN,a.com")]
      = Return (text, m) /\
    merge_yaml_files [("merged.yaml", text)] = Return (text', m') /\
    all_rules m' = all_rules m /\
    total_rules m' = total_rules m /\
    rule_stats m' = rule_stats m.
Proof.
  apply (merged_text_read_back
           [("a.yaml", "payload:" +:+ newline +:+ "  - DOMAIN,a.com");
            ("b.yaml", "  - DOMAIN-SUFFIX,b.org" +:+ newline
                       +:+ "  - DOMAIN,a.com")]
           "merged.yaml").
  repeat constructor.
Defined.

Local Notation meta_ok md :=
  (map_Forall (fun (_ : string) (v : meta_value) =>
                 match v with
                 | MStr s => mentions LF s = false
                 | MInt _ => True
                 end) md).

Lemma split_max_mentions_other (c d : ascii) (s : string) :
  mentions d s = false ->
  forall (n : nat) (x : string),
    x ∈ split_max c n s -> mentions d x = false.
Proof.
  induction s as [|y s IH]; intros Hs n x.
  - destruct n; simpl; intros ->%list_elem_of_singleton; done.
  - destruct n as [|n]; simpl.
    { intros ->%list_elem_of_singleton. done. }
    simpl in Hs. apply orb_false_iff in Hs as [Hy Hs].
    destruct (Ascii.eqb y c).
    + intros [->|Hx]%elem_of_cons; [done|]. by apply (IH Hs n).
    + destruct (split_max c (S n) s) as [|w ws] eqn:Hsp; simpl.
      * intros ->%list_elem_of_singleton. simpl. by rewrite Hy.
      * intros [->|Hx]%elem_of_cons.
        -- simpl. rewrite Hy. simpl. apply (IH Hs (S n)).
           rewrite Hsp. by left.
        -- apply (IH Hs (S n)). rewrite Hsp. by right.
Qed.

Lemma for_state_invariant {A S : Type} (P : S -> Prop) (xs : list A)
    (body : S -> A -> outcome S) :
  (forall st x st', P st -> body st x = Return st' -> P st') ->
  forall st st', P st -> for_state xs st body = Return st' -> P st'.
Proof.
  intros Hbody. induction xs as [|x xs IH]; intros st st' Hst; simpl.
  - by intros [= <-].
  - destruct (body st x) as [st1|e] eqn:Hb; simpl; [|done].
    apply IH. by eapply Hbody.
Qed.

Lemma set_text_key_ok (line : string) (md md' : gmap string meta_value)
    (key : string) :
  mentions LF line = false -> meta_ok md ->
  set_text_key line md key = Return md' -> meta_ok md'.
Proof.
  intros Hlf Hmd. unfold set_text_key.
  destruct (contains line _); [|by intros [= <-]].
  unfold index.
  destruct (split_max ":"%char 1 line !! 1) as [rest|] eqn:Hrest; simpl;
    [|done].
  intros [= <-]. apply map_Forall_insert_2; [|done].
  apply mentions_strip.
  apply (split_max_mentions_other ":"%char LF line Hlf 1).
  by eapply list_elem_of_lookup_2.
Qed.

Lemma set_count_key_ok (line : string) (md md' : gmap string meta_value)
    (key : string) :
  meta_ok md -> set_count_key line md key = Return md' -> meta_ok md'.
Proof.
  intros Hmd. unfold set_count_key.
  destruct (contains line _); [|by intros [= <-]].
  destruct (and_then _ _); intros [= <-]; [|done].
  by apply map_Forall_insert_2.
Qed.

Lemma parse_line_meta (st st' : state) (n : nat) (line : string) :
  mentions LF line = false -> meta_ok (metadata st) ->
  parse_line st (n, line) = Return st' -> meta_ok (metadata st').
Proof.
  intros Hlf Hmd. unfold parse_line.
  pose proof (mentions_strip LF line Hlf) as Hl.
  set (l := strip line) in *. clearbody l.
  destruct (startswith l "#").
  - destruct (for_state ["NAME"; "AUTHOR"; "REPO"; "UPDATED"] (metadata st)
                (set_text_key l)) as [md1|] eqn:H1; cbn [and_then]; [|done].
    destruct (for_state
                ["DOMAIN-KEYWORD"; "DOMAIN-SUFFIX"; "IP-CIDR"; "IP-CIDR6";
                 "TOTAL"] md1 (set_count_key l)) as [md2|] eqn:H2;
      cbn [and_then]; [|done].
    intros [= <-]. simpl.
    eapply (for_state_invariant (fun md => meta_ok md)); [| |exact H2].
    { intros md x md' Hok. by apply set_count_key_ok. }
    eapply (for_state_invariant (fun md => meta_ok md)); [| |exact H1].
    { intros md x md' Hok. by apply set_text_key_ok. }
    done.
  - destruct (truthy l); simpl; [|by intros [= <-]].
    destruct (length (split ","%char l) <? 2); [by intros [= <-]|].
    destruct (index (split ","%char l) 0); simpl; [|done].
    destruct (index (split ","%char l) 1); simpl; [|done].
    repeat case_bool_decide; simpl; by intros [= <-].
Qed.

Lemma parse_loop_meta (lines : list string) :
  forall (n : nat) (st st' : state),
    Forall (fun l => mentions LF l = false) lines ->
    meta_ok (metadata st) ->
    for_state (enumerate n lines) st parse_line = Return st' ->
    meta_ok (metadata st').
Proof.
  induction lines as [|line lines IH]; intros n st st' Hall Hst.
  - by intros [= <-].
  - apply Forall_cons in Hall as [Hline Hall].
    change (and_then (parse_line st (n, line))
              (fun st1 => for_state (enumerate (S n) lines) st1 parse_line)
            = Return st' -> meta_ok (metadata st')).
    destruct (parse_line st (n, line)) as [st1|] eqn:H1; cbn [and_then];
      [|done].
    apply IH; [done|]. by eapply parse_line_meta.
Qed.

Lemma initial_meta_ok : meta_ok (metadata initial).
Proof.
  intros key v Hkv. apply elem_of_list_to_map_2 in Hkv.
  repeat (apply elem_of_cons in Hkv as [[= -> ->]|Hkv]; [done|]).
  by apply elem_of_nil in Hkv.
Qed.

Lemma str_int_mentions (z : Z) : mentions LF (str_int z) = false.
Proof.
  unfold str_int. destruct (z <? 0)%Z; [|apply str_nat_mentions].
  by rewrite mentions_app, str_nat_mentions.
Qed.

Lemma format_meta_mentions (md : gmap string meta_value) (key : string) :
  meta_ok md -> mentions LF (format_meta md key) = false.
Proof.
  intros Hmd. unfold format_meta.
  destruct (md !! key) as [[s|z]|] eqn:Hk; [|apply str_int_mentions|done].
  apply (Hmd key (MStr s) Hk).
Qed.

Lemma rstrip_app_cons (a : string) (d : ascii) (b : string) :
  isspace d = false ->
  rstrip (a +:+ String d b) = a +:+ String d (rstrip b).
Proof.
  intros Hd. induction a as [|x a IH].
  - rewrite !str_app_nil. by apply rstrip_cons.
  - rewrite !str_app_cons.
    change (rstrip (String x (a +:+ String d b)))
      with (match rstrip (a +:+ String d b) with
            | EmptyString =>
                if isspace x then EmptyString else String x EmptyString
            | r => String x r
            end).
    rewrite IH. destruct a; by rewrite ?str_app_nil, ?str_app_cons.
Qed.

Lemma supported_kind_shape (t : string) :
  t ∈ SUPPORTED_RULE_TYPES ->
  exists (c : ascii) (t' : string),
    t = String c t' /\ isspace c = false /\ mentions LF t = false.
Proof.
  unfold SUPPORTED_RULE_TYPES. rewrite !elem_of_union, !elem_of_singleton.
  intros Ht.
  repeat (destruct Ht as [Ht| ->]; [|by eexists _, _]).
  subst. by eexists _, _.
Qed.

Lemma yaml_rule_clean (line t v : string) :
  yaml_rule line = Some (t, v) -> mentions LF line = false ->
  mentions LF (t +:+ "," +:+ v) = false /\
  strip (t +:+ "," +:+ v) = t +:+ "," +:+ v /\
  t +:+ "," +:+ v <> EmptyString.
Proof.
  intros Hrule Hlf.
  destruct (yaml_rule_Some line t v Hrule) as (Ht & _ & Hv & _).
  destruct (supported_kind_shape t Ht) as (c & t' & -> & Hc & Htlf).
  assert (mentions LF v = false) as Hvlf.
  { revert Hrule. unfold yaml_rule.
    destruct (startswith (strip line) "#" || negb (truthy (strip line)));
      [done|].
    destruct (split ","%char (strip line)) as [|p0 [|p1 rest]] eqn:Hsp;
      try done.
    repeat case_bool_decide; try done. intros [= _ <-].
    apply mentions_strip.
    apply (split_mentions_other ","%char LF (strip line));
      [by apply mentions_strip|].
    rewrite Hsp. apply elem_of_cons. right. by left. }
  split_and!.
  - rewrite !mentions_app, Htlf, Hvlf. done.
  - change ("," +:+ v) with (String ","%char v).
    unfold strip.
    change (lstrip (String c t' +:+ String "," v))
      with (if isspace c then lstrip (t' +:+ String "," v)
            else String c t' +:+ String "," v).
    rewrite Hc, rstrip_app_cons by done. by rewrite (rstrip_fixed v Hv).
  - by rewrite str_app_cons.
Qed.

Lemma converted_read_back (content : string) (data : state) :
  parse_list_file content = Return data ->
  omap payload_rule (split LF (convert_to_yaml data)) = rules data.
Proof.
  unfold parse_list_file. intros Hrun.
  assert (Forall (fun l => mentions LF l = false)
            (split LF (strip content))) as Hlines.
  { apply Forall_forall. intros l Hl. by apply (split_no_sep LF (strip content)). }
  pose proof (parse_loop_meta _ 1 initial data Hlines initial_meta_ok Hrun)
    as Hmeta.
  destruct (yaml_parse_lines_run (split LF (strip content)))
    as (st & Hrun' & Hrules & _).
  rewrite Hrun in Hrun'. injection Hrun' as <-.
  unfold convert_to_yaml.
  rewrite (fold_left_snoc _ (fun r => ["  - " +:+ r])) by done.
  rewrite (fold_left_snoc _
             (fun key =>
                match stats data !! key with
                | Some n => ["# " +:+ key +:+ ": " +:+ str_nat n]
                | None => []
                end))
    by (intros acc key; destruct (stats data !! key);
        [done|by rewrite app_nil_r]).
  rewrite concat_singletons.
  match goal with
  | |- omap _ (split _ (join _ ((((?h ++ ?s) ++ ?t) ++ _) ++ _))) = _ =>
      transitivity
        (omap payload_rule
           (split LF
              (join newline
                 ((h ++ s ++ t)
                  ++ "payload:" :: ((fun r => "  - " +:+ r) <$> rules data)))));
      [by rewrite <- !app_assoc|]
  end.
  apply read_back.
  - apply Forall_app; split; [|apply Forall_app; split].
    + do 4 (apply Forall_cons; split;
            [apply hash_header; [done|done|by apply format_meta_mentions]|]).
      apply Forall_nil_2.
    + cbn [fmap list_fmap concat].
      do 4 (apply Forall_app; split;
            [destruct (stats data !! _) as [count|]; [|apply Forall_nil_2];
             apply Forall_singleton;
             match goal with
             | |- context [?p +:+ ?k +:+ ?q +:+ str_nat count] =>
                 apply (hash_header p (k +:+ q +:+ str_nat count));
                 [done|done|by rewrite !mentions_app, str_nat_mentions]
             end|]).
      apply Forall_nil_2.
    + apply Forall_singleton.
      apply hash_header; [done|done|apply str_nat_mentions].
  - rewrite Hrules. apply Forall_forall. intros r Hr.
    unfold yaml_rules_of in Hr.
    apply list_elem_of_fmap in Hr as ([t v] & -> & Htv).
    apply list_elem_of_omap in Htv as (line & Hline & Htv).
    apply (yaml_rule_clean line t v Htv).
    by apply (proj1 (Forall_forall _ _) Hlines).
Qed.

(** X14. The merger reads back what the converter writes.  Whatever rule
    lists are converted, merging the YAML texts made of them never raises,
    and the rules it collects are the rules parsed from the lists, file
    after file, each kept once where it is met first. *)
Theorem converted_files_merge :
  forall contents : list (string * string),
    exists (parsed : list state) (text : string) (m : merging),
      Forall2 (fun (named : string * string) (data : state) =>
                 parse_list_file named.2 = Return data) contents parsed /\
      merge_yaml_files
        (zip_with (fun (named : string * string) (data : state) =>
                     (named.1, convert_to_yaml data)) contents parsed)
        = Return (text, m) /\
      all_rules m = keep_first ∅ (concat (rules <$> parsed)).
Proof.
  intros contents.
  assert (exists parsed : list state,
            Forall2 (fun (named : string * string) (data : state) =>
                       parse_list_file named.2 = Return data)
                    contents parsed) as (parsed & Hparsed).
  { induction contents as [|named contents (parsed & IH)]; [by exists []|].
    destruct (yaml_parse_lines_run (split LF (strip named.2)))
      as (data & Hrun & _).
    exists (data :: parsed). by constructor. }
  destruct (merge_yaml_files_run
              (zip_with (fun (named : string * string) (data : state) =>
                           (named.1, convert_to_yaml data)) contents parsed))
    as (m & Hrun & Ha & _).
  exists parsed. eexists _, m. split_and!; [done|exact Hrun|].
  rewrite Ha. f_equal. clear Hrun Ha.
  induction Hparsed as [|named data contents parsed Hdata _ IH]; [done|].
  cbn [zip_with fmap list_fmap concat].
  change (lines_of ((named.1, convert_to_yaml data)
                    :: zip_with (fun (named : string * string) (data : state) =>
                                   (named.1, convert_to_yaml data))
                         contents parsed))
    with (split LF (convert_to_yaml data)
          ++ lines_of (zip_with (fun (named : string * string) (data : state) =>
                                   (named.1, convert_to_yaml data))
                         contents parsed)).
  by rewrite omap_app, IH, (converted_read_back named.2 data Hdata).
Qed.

End YamlMerge.

(** ** domain_merge_optimizer: the name of a downloaded file *)
Section Download.
Import Py DomainMergeOptimizerMore Spec.
Local Open Scope outcome_scope.

Lemma contains_char_false (c : ascii) (s : string) :
  contains s (String c EmptyString) = false -> mentions c s = false.
Proof.
  induction s as [|x s IH]; [done|].
  change (contains (String x s) (String c EmptyString))
    with (startswith (String x s) (String c EmptyString)
          || contains s (String c EmptyString)).
  intros [Hx Hs]%orb_false_iff. simpl. rewrite (IH Hs), orb_false_r.
  destruct (Ascii.eqb x c) eqn:Hxc; [|done].
  apply Ascii.eqb_eq in Hxc as ->.
  rewrite (proj2 (startswith_iff (String c s) (String c EmptyString))) in Hx;
    [done|]. exists s. by rewrite str_app_cons, str_app_nil.
Qed.

Lemma index_last_split (c : ascii) (s : string) :
  exists x, index_last (split c s) = Return x /\ x ∈ split c s.
Proof.
  unfold index_last.
  destruct (last (split c s)) as [x|] eqn:Hlast.
  - exists x. split; [done|].
    apply last_Some in Hlast as (l' & ->). apply elem_of_app. right. by left.
  - apply last_None in Hlast. destruct (split_head c s) as (h & t & Hsp).
    by rewrite Hsp in Hlast.
Qed.

(** X16. The name a download is saved under is always found, ends with
    [.list], and holds neither a slash nor a question mark: the file lands
    in the download directory itself. *)
Theorem download_filename_safe :
  forall source : string,
    exists filename : string,
      download_filename source = Return filename /\
      endswith filename ".list" = true /\
      mentions "/"%char filename = false /\
      mentions "?"%char filename = false.
Proof.
  intros source. unfold download_filename.
  destruct (index_last_split "/"%char source) as (seg & -> & Hseg).
  cbn [and_then].
  apply (split_no_sep "/"%char source) in Hseg.
  assert (exists name,
            (if contains seg "?" then index (split "?"%char seg) 0
             else Return seg) = Return name /\
            mentions "/"%char name = false /\
            mentions "?"%char name = false) as (name & -> & Hslash & Hq).
  { destruct (contains seg "?") eqn:Hc.
    - destruct (split_head "?"%char seg) as (h & t & Hsp).
      exists h. unfold index. rewrite Hsp. split_and!; [done| |].
      + apply (split_mentions_other "?"%char "/"%char seg Hseg).
        rewrite Hsp. by left.
      + apply (split_no_sep "?"%char seg). rewrite Hsp. by left.
    - exists seg. split_and!; [done|done|]. by apply contains_char_false. }
  cbn [and_then]. eexists. split; [done|].
  destruct (endswith name ".list") eqn:He; simpl.
  - done.
  - split_and!.
    + apply endswith_iff. by exists name.
    + by rewrite mentions_app, Hslash.
    + by rewrite mentions_app, Hq.
Qed.

End Download.
